(** * Workload dashboard: the aggregation core of [app.py]

    A shallow embedding of the data-processing parts of the Streamlit
    dashboard: the calendar helper [yms], the two month-shift handlers, the
    column check [ensure_columns], the dominant-phase queries, the
    employee-annotation aggregation with its conflict detection and
    utilisation bands, and the monthly capacity totals.

    Conventions of the embedding.
    - A Python [str] is a [string] (a sequence of bytes); the text handled
      here is ASCII.
    - A Python [int] is a [Z].
    - A Python [float] is a [pyfloat]: an exact rational, or one of the
      non-finite values that [float()] can produce from text.  Arithmetic is
      exact: binary rounding, overflow and underflow are outside the model.
    - A data frame is the list of its rows, in index order. A cell that
      pandas holds as NaN (an empty field of an uploaded CSV) is [None]; this
      is modelled for the two columns whose missing values the code meets:
      [Phase], which [groupby] uses as key, and [Employees], which the code
      tests with [pd.notna].
    - A raised exception is an explicit result: [None] for the built-ins,
      [Raise e] for the functions of the application. *)

From Stdlib Require Import List String Ascii Bool ZArith QArith Qreduction Lia Lqa.
From Stdlib Require Import DecimalString Sorted Permutation OrderedTypeEx.
Import ListNotations.

Local Open Scope string_scope.
Local Open Scope Z_scope.

(* ===================================================================== *)
(** * Python built-ins used by the application *)
(* ===================================================================== *)

Module Py.

(** ** Exceptions and results *)

Inductive exn : Type :=
| ValueError (msg : string)
| IndexError.

Inductive result (A : Type) : Type :=
| Ok (a : A)
| Raise (e : exn).
Arguments Ok {A} a.
Arguments Raise {A} e.

(** ** Characters *)

Definition code (c : ascii) : Z := Z.of_N (N_of_ascii c).

Definition is_digit (c : ascii) : bool := (48 <=? code c) && (code c <=? 57).

(** Whitespace of [str.strip()]: tab, LF, VT, FF, CR, the four separators
    0x1c..0x1f and the space. *)
Definition is_space (c : ascii) : bool :=
  ((9 <=? code c) && (code c <=? 13)) || ((28 <=? code c) && (code c <=? 32)).

(** Whitespace skipped by [int()] and [float()] around an ASCII literal:
    tab, LF, VT, FF, CR and the space. *)
Definition is_space_num (c : ascii) : bool :=
  ((9 <=? code c) && (code c <=? 13)) || (code c =? 32).

Definition lower (c : ascii) : ascii :=
  if (65 <=? code c) && (code c <=? 90)
  then ascii_of_N (N_of_ascii c + 32) else c.

(** ** Strings *)

Definition is_empty (s : string) : bool :=
  match s with EmptyString => true | String _ _ => false end.

(** [c in s] for a one-character needle. *)
Fixpoint contains (c : ascii) (s : string) : bool :=
  match s with
  | EmptyString => false
  | String d r => Ascii.eqb d c || contains c r
  end.

(** [s.split(sep)] for a one-character separator: always at least one
    piece, one more than the number of separators. *)
Fixpoint split (sep : ascii) (s : string) : list string :=
  match s with
  | EmptyString => [EmptyString]
  | String c r =>
      if Ascii.eqb c sep then EmptyString :: split sep r
      else match split sep r with
           | [] => [String c EmptyString]
           | h :: t => String c h :: t
           end
  end.

Fixpoint lstrip_by (sp : ascii -> bool) (s : string) : string :=
  match s with
  | EmptyString => EmptyString
  | String c r => if sp c then lstrip_by sp r else s
  end.

Fixpoint rstrip_by (sp : ascii -> bool) (s : string) : string :=
  match s with
  | EmptyString => EmptyString
  | String c r =>
      let r' := rstrip_by sp r in
      if is_empty r' && sp c then EmptyString else String c r'
  end.

(** [s.strip()] *)
Definition strip (s : string) : string := rstrip_by is_space (lstrip_by is_space s).

(** [sep.join(l)] *)
Definition join (sep : string) (l : list string) : string := String.concat sep l.

Fixpoint map_str (f : ascii -> ascii) (s : string) : string :=
  match s with
  | EmptyString => EmptyString
  | String c r => String (f c) (map_str f r)
  end.

(** [x in l] for a list of strings. *)
Definition mem (x : string) (l : list string) : bool := existsb (String.eqb x) l.

(** ** Numeric literals *)

(** The digit-separator rule shared by [int()] and [float()]: an underscore
    is accepted only between two digits, and is dropped. [prev] is the
    previous character (NUL at the start). *)
Fixpoint drop_underscores (prev : ascii) (s : string) : option string :=
  match s with
  | EmptyString => if Ascii.eqb prev "_" then None else Some EmptyString
  | String c r =>
      if Ascii.eqb c "_" then
        if is_digit prev then drop_underscores c r else None
      else if Ascii.eqb prev "_" && negb (is_digit c) then None
      else option_map (String c) (drop_underscores c r)
  end.

(** Value of a run of decimal digits, most significant first; [None] when a
    character is not a digit. *)
Fixpoint digits_value (s : string) (acc : Z) : option Z :=
  match s with
  | EmptyString => Some acc
  | String c r =>
      if is_digit c then digits_value r (10 * acc + (code c - 48)) else None
  end.

Definition split_sign (s : string) : bool * string :=
  match s with
  | String "-" r => (true, r)
  | String "+" r => (false, r)
  | _ => (false, s)
  end.

(** [int(s)] in base ten: surrounding whitespace, an optional sign, at least
    one digit, underscores between digits. [None] is [ValueError]. *)
Definition int (s : string) : option Z :=
  match drop_underscores zero s with
  | None => None
  | Some s1 =>
      let s2 := rstrip_by is_space_num (lstrip_by is_space_num s1) in
      let '(neg, body) := split_sign s2 in
      if is_empty body then None
      else option_map (fun v => if neg then - v else v) (digits_value body 0)
  end.

(** Decimal digits of a non-negative integer. *)
Definition digits (n : Z) : string := NilZero.string_of_uint (N.to_uint (Z.to_N n)).

Fixpoint zeros (k : nat) : string :=
  match k with O => EmptyString | S k' => String "0" (zeros k') end.

(** [f"{z:0{width}d}"]: sign-aware zero padding to a minimum width. *)
Definition format_0d (width : nat) (z : Z) : string :=
  let sign := if z <? 0 then "-" else "" in
  let body := digits (Z.abs z) in
  sign ++ zeros (width - String.length sign - String.length body) ++ body.

(** [range(n)] *)
Definition range (n : Z) : list Z := map Z.of_nat (seq 0 (Z.to_nat n)).

End Py.

Import Py.

(* ===================================================================== *)
(** * Calendar utility *)
(* ===================================================================== *)

(** [y, m = map(int, s.split("-"))]: exactly two pieces, both integers;
    anything else raises inside the unpacking or inside [int]. *)
Definition parse_ym (s : string) : option (Z * Z) :=
  match split "-" s with
  | [a; b] =>
      match Py.int a, Py.int b with
      | Some y, Some m => Some (y, m)
      | _, _ => None
      end
  | _ => None
  end.

(** [f"{yy:04d}-{mm:02d}"] *)
Definition format_ym (yy mm : Z) : string :=
  format_0d 4 yy ++ "-" ++ format_0d 2 mm.

(** [yms(start_ym, n)]; [None] when the start token does not parse. *)
Definition yms (start_ym : string) (n : Z) : option (list string) :=
  match parse_ym start_ym with
  | None => None
  | Some (y, m) =>
      Some (map (fun i =>
                   let yy := y + (m - 1 + i) / 12 in
                   let mm := (m - 1 + i) mod 12 + 1 in
                   format_ym yy mm)
                (range n))
  end.


(** The body of the "Shift Selected +1 Month" handler up to [new_date];
    [None] when the two-way unpacking or [int] raises. *)
Definition shift_forward (old_date : string) : option string :=
  match parse_ym old_date with
  | None => None
  | Some (y, m) =>
      let new_m := m + 1 in
      let new_y := y in
      let '(new_m, new_y) := if new_m >? 12 then (1, new_y + 1) else (new_m, new_y) in
      Some (format_ym new_y new_m)
  end.

(** The body of the "Shift Selected -1 Month" handler up to [new_date]. *)
Definition shift_backward (old_date : string) : option string :=
  match parse_ym old_date with
  | None => None
  | Some (y, m) =>
      let new_m := m - 1 in
      let new_y := y in
      let '(new_m, new_y) := if new_m <? 1 then (12, new_y - 1) else (new_m, new_y) in
      Some (format_ym new_y new_m)
  end.

(** The calendar as the specification words it: one step forward or back on
    a (year, month) pair, and the walk of [k] consecutive months. *)
Module Calendar.

Definition ym : Type := (Z * Z)%type.

Definition next_month (t : ym) : ym :=
  let '(y, m) := t in if m =? 12 then (y + 1, 1) else (y, m + 1).

Definition prev_month (t : ym) : ym :=
  let '(y, m) := t in if m =? 1 then (y - 1, 12) else (y, m - 1).

Fixpoint months_from (t : ym) (k : nat) : list ym :=
  match k with
  | O => []
  | S k' => t :: months_from (next_month t) k'
  end.

Definition token (t : ym) : string := format_ym (fst t) (snd t).

(** A valid token is the zero-padded rendering of a four-digit year and a
    month of the calendar. *)
Definition valid (t : ym) : Prop := 0 <= fst t <= 9999 /\ 1 <= snd t <= 12.

End Calendar.

(* ===================================================================== *)
(** * Data model *)
(* ===================================================================== *)

(** One row of the allocations frame. A cell that pandas holds as NaN (an
    empty CSV field) is [None]; efforts are exact rationals. *)
Record alloc_row : Type := mk_alloc {
  Project : string;
  Date : string;
  Phase : option string;
  MM : Q;
  Employees : option string
}.

(** One row of the meta frame. *)
Record meta_row : Type := mk_meta {
  meta_Project : string;
  Department : string;
  Total_MM : Q
}.

Definition with_Date (d : string) (r : alloc_row) : alloc_row :=
  mk_alloc (Project r) d (Phase r) (MM r) (Employees r).

(** Elementwise [==] on a column that may hold NaN: NaN equals nothing. *)
Definition cell_eqb (a b : option string) : bool :=
  match a, b with
  | Some x, Some y => String.eqb x y
  | _, _ => false
  end.

(* ===================================================================== *)
(** * Bulk month shift (the two editor handlers) *)
(* ===================================================================== *)

Section BulkShift.

(** [shift] is [shift_forward] or [shift_backward]. *)
Variable shift : string -> option string.

(** [alloc_data.loc[mask, "Date"] = new_date] with the handler's mask. *)
Definition set_date_where (project old_date : string) (phase : option string)
           (new_date : string) (alloc_data : list alloc_row) : list alloc_row :=
  map (fun r =>
         if String.eqb (Project r) project && String.eqb (Date r) old_date
            && cell_eqb (Phase r) phase
         then with_Date new_date r else r)
      alloc_data.

(** One iteration of [for idx in edited_alloc.index]: the [try] body, and
    [except: pass] leaving the main data as it was. *)
Definition shift_row (alloc_data : list alloc_row) (row : alloc_row) : list alloc_row :=
  let old_date := Date row in
  match shift old_date with
  | Some new_date => set_date_where (Project row) old_date (Phase row) new_date alloc_data
  | None => alloc_data
  end.

Definition shift_selected (edited_alloc alloc_data : list alloc_row) : list alloc_row :=
  fold_left shift_row edited_alloc alloc_data.

End BulkShift.

(* ===================================================================== *)
(** * Floating-point values and [float()] *)
(* ===================================================================== *)

Module PyFloat.

(** A [float] as the application can meet it: a finite value, held as the
    rational it denotes, an infinity or a NaN. *)
Inductive pyfloat : Type :=
| Fin (q : Q)
| Inf (neg : bool)
| NaN.

Definition fadd (a b : pyfloat) : pyfloat :=
  match a, b with
  | NaN, _ | _, NaN => NaN
  | Fin x, Fin y => Fin (Qred (x + y))
  | Inf s, Fin _ | Fin _, Inf s => Inf s
  | Inf s, Inf t => if Bool.eqb s t then Inf s else NaN
  end.

Definition Qneg_b (q : Q) : bool := negb (Qle_bool 0 q).
Definition Qzero_b (q : Q) : bool := Qeq_bool q 0.

Definition fmul (a b : pyfloat) : pyfloat :=
  match a, b with
  | NaN, _ | _, NaN => NaN
  | Fin x, Fin y => Fin (Qred (x * y))
  | Inf s, Fin y | Fin y, Inf s => if Qzero_b y then NaN else Inf (xorb s (Qneg_b y))
  | Inf s, Inf t => Inf (xorb s t)
  end.

(** [a / b]. The application divides by the literals 4.0 and 40 only; a
    zero divisor, which Python refuses with [ZeroDivisionError], never
    reaches this function and is given NaN. *)
Definition fdiv (a b : pyfloat) : pyfloat :=
  match a, b with
  | NaN, _ | _, NaN => NaN
  | Fin x, Fin y => if Qzero_b y then NaN else Fin (Qred (x / y))
  | Inf s, Fin y => if Qzero_b y then NaN else Inf (xorb s (Qneg_b y))
  | Fin _, Inf _ => Fin 0
  | Inf _, Inf _ => NaN
  end.

(** [a == b], [a < b], [a <= b], [a > b]: every comparison with NaN is false. *)
Definition feq (a b : pyfloat) : bool :=
  match a, b with
  | Fin x, Fin y => Qeq_bool x y
  | Inf s, Inf t => Bool.eqb s t
  | _, _ => false
  end.

Definition flt (a b : pyfloat) : bool :=
  match a, b with
  | Fin x, Fin y => negb (Qle_bool y x)
  | Fin _, Inf t => negb t
  | Inf s, Fin _ => s
  | Inf s, Inf t => s && negb t
  | _, _ => false
  end.

Definition fle (a b : pyfloat) : bool :=
  match a, b with
  | Fin x, Fin y => Qle_bool x y
  | Fin _, Inf t => negb t
  | Inf s, Fin _ => s
  | Inf s, Inf t => s || negb t
  | _, _ => false
  end.

Definition fgt (a b : pyfloat) : bool := flt b a.

(** ** [float(s)] *)

(** The longest prefix of decimal digits, and the rest. *)
Fixpoint span_digits (s : string) : string * string :=
  match s with
  | EmptyString => (EmptyString, EmptyString)
  | String c r =>
      if is_digit c then let '(d, rest) := span_digits r in (String c d, rest)
      else (EmptyString, s)
  end.

(** The optional exponent [e[+-]digits] that must end the literal. *)
Definition exponent (s : string) : option Z :=
  match s with
  | EmptyString => Some 0
  | String c r =>
      if Ascii.eqb (lower c) "e" then
        let '(neg, ds) := split_sign r in
        if is_empty ds then None
        else option_map (fun v => if neg then - v else v) (digits_value ds 0)
      else None
  end.

(** [mant * 10 ^ e10] as a reduced fraction. *)
Definition scale10 (mant e10 : Z) : Q :=
  Qred (if 0 <=? e10 then Qmake (mant * 10 ^ e10) 1
        else Qmake mant (Z.to_pos (10 ^ (- e10)))).

(** An unsigned decimal literal: digits, an optional point and more digits
    (at least one digit in all), an optional exponent. *)
Definition decimal (s : string) : option Q :=
  let '(ip, r1) := span_digits s in
  let '(fp, r2) := match r1 with
                   | String "." r => span_digits r
                   | _ => (EmptyString, r1)
                   end in
  if is_empty ip && is_empty fp then None
  else match digits_value (ip ++ fp) 0, exponent r2 with
       | Some mant, Some e => Some (scale10 mant (e - Z.of_nat (String.length fp)))
       | _, _ => None
       end.

(** [float(s)] on text: underscores between digits, surrounding whitespace,
    an optional sign, then [inf], [infinity] or [nan] in any letter case, or
    a decimal literal. [None] is [ValueError]. *)
Definition float (s : string) : option pyfloat :=
  match drop_underscores zero s with
  | None => None
  | Some s1 =>
      let s2 := rstrip_by is_space_num (lstrip_by is_space_num s1) in
      let '(neg, body) := split_sign s2 in
      let word := map_str lower body in
      if String.eqb word "inf" || String.eqb word "infinity" then Some (Inf neg)
      else if String.eqb word "nan" then Some NaN
      else option_map (fun q => Fin (if neg then Qred (- q) else q)) (decimal body)
  end.

End PyFloat.

Import PyFloat.

(* ===================================================================== *)
(** * Column check at load time *)
(* ===================================================================== *)

(** [ensure_columns(df, required, name)], on the frame's column labels. *)
Definition ensure_columns (columns required : list string) (name : string) : result unit :=
  let missing := filter (fun c => negb (mem c columns)) required in
  match missing with
  | [] => Ok tt
  | _ :: _ =>
      Raise (ValueError (name ++ " is missing required columns: " ++ join ", " missing))
  end.

Definition meta_required : list string := ["Project"; "Department"; "Total_MM"].
Definition alloc_required : list string := ["Project"; "Date"; "Phase"; "MM"].

(** [str(e)] for the exceptions of this model. *)
Definition exn_text (e : exn) : string :=
  match e with
  | ValueError msg => msg
  | IndexError => "index 0 is out of bounds for axis 0 with size 0"
  end.

(** What one run of the script shows: the error box followed by [st.stop()],
    or whatever the rest of the script computes. *)
Inductive run (A : Type) : Type :=
| Stopped (error_box : string)
| Rendered (page : A).
Arguments Stopped {A} error_box.
Arguments Rendered {A} page.

(** The load-time block of the script (the [try] around the two column
    checks), followed by the rest of the script as a continuation over the
    allocation columns. Only the column labels of the two frames matter here. *)
Definition load_and_run {A : Type} (meta_columns alloc_columns : list string)
           (rest : list string -> A) : run A :=
  match ensure_columns meta_columns meta_required "Meta dataframe" with
  | Raise e => Stopped ("Data error: " ++ exn_text e)
  | Ok _ =>
      let alloc_columns :=
        if mem "Employees" alloc_columns then alloc_columns
        else (alloc_columns ++ ["Employees"])%list in
      match ensure_columns alloc_columns alloc_required "Allocations dataframe" with
      | Raise e => Stopped ("Data error: " ++ exn_text e)
      | Ok _ => Rendered (rest alloc_columns)
      end
  end.

(* ===================================================================== *)
(** * Allocation index: the dominant phase of a project-month *)
(* ===================================================================== *)

(** [Series.sum()] of a column of efforts. *)
Definition Qsum (l : list Q) : Q := fold_left Qplus l 0%Q.

(** [df[(df["Project"] == project) & (df["Date"] == ym)]] *)
Definition select_month (df_alloc : list alloc_row) (project ym : string) : list alloc_row :=
  filter (fun r => String.eqb (Project r) project && String.eqb (Date r) ym) df_alloc.

(** Group keys of [groupby("Phase")]: the phases present, each once, in
    increasing order; rows whose phase is NaN belong to no group. *)
Fixpoint insert_key (k : string) (keys : list string) : list string :=
  match keys with
  | [] => [k]
  | h :: t =>
      match String.compare k h with
      | Eq => keys
      | Lt => k :: keys
      | Gt => h :: insert_key k t
      end
  end.

Definition group_keys (rows : list alloc_row) : list string :=
  fold_left (fun keys r => match Phase r with
                           | Some p => insert_key p keys
                           | None => keys
                           end)
            rows [].

Definition in_phase (p : string) (r : alloc_row) : bool := cell_eqb (Phase r) (Some p).

(** [rows.groupby("Phase")["MM"].sum()] *)
Definition groupby_phase_sum (rows : list alloc_row) : list (string * Q) :=
  map (fun p => (p, Qsum (map MM (filter (in_phase p) rows)))) (group_keys rows).

(** [sort_values(ascending=False)]: decreasing by value; equal values keep
    their relative order (the order of ties is pandas' choice, and nothing
    proved below depends on it). *)
Section SortDesc.
Context {A : Type} (value : A -> Q).

Fixpoint insert_desc (x : A) (l : list A) : list A :=
  match l with
  | [] => [x]
  | h :: t => if Qle_bool (value h) (value x) then x :: l else h :: insert_desc x t
  end.

Definition sort_values_desc (l : list A) : list A :=
  fold_right insert_desc [] l.

(** The first element, when there is one, carries the largest value. *)
Definition tops (l : list A) : Prop :=
  match l with
  | [] => True
  | x :: _ => forall y, In y l -> (value y <= value x)%Q
  end.
End SortDesc.

(** The summed effort of one phase among some rows. *)
Definition phase_effort (rows : list alloc_row) (p : string) : Q :=
  Qsum (map MM (filter (in_phase p) rows)).

(** [month_mm_and_phase(df_alloc, project, ym)] *)
Definition month_mm_and_phase (df_alloc : list alloc_row) (project ym : string)
  : result (Q * option string) :=
  let rows := select_month df_alloc project ym in
  match rows with
  | [] => Ok (0%Q, None)
  | _ :: _ =>
      let grp := sort_values_desc snd (groupby_phase_sum rows) in
      match grp with
      | [] => Raise IndexError          (* grp.index[0] on an empty index *)
      | (phase, mm) :: _ => Ok (mm, Some phase)
      end
  end.

(** [str(top["Phase"])] *)
Definition str_cell (c : option string) : string :=
  match c with Some s => s | None => "nan" end.

(** [month_phase(df_alloc, project, ym)]: the phase of the single row with
    the largest effort, without grouping. *)
Definition month_phase (df_alloc : list alloc_row) (project ym : string) : option string :=
  let rows := select_month df_alloc project ym in
  match sort_values_desc MM rows with
  | [] => None
  | top :: _ => Some (str_cell (Phase top))
  end.

(* ===================================================================== *)
(** * Employee allocations, conflicts and utilisation bands *)
(* ===================================================================== *)

(** A value of the dictionary [employee_allocations]. *)
Record load : Type := mk_load {
  total_mm : pyfloat;
  projects : list (string * pyfloat)
}.

(** The dictionary itself, keyed by (employee, date). A Python [dict] keeps
    its keys in insertion order and the conflict loop walks it in that order,
    so it is an association list with one entry per key. *)
Definition emp_key : Type := (string * string)%type.
Definition emp_dict : Type := list (emp_key * load).

Definition key_eqb (a b : emp_key) : bool :=
  String.eqb (fst a) (fst b) && String.eqb (snd a) (snd b).

Fixpoint dict_get (k : emp_key) (d : emp_dict) : option load :=
  match d with
  | [] => None
  | (k', v) :: t => if key_eqb k k' then Some v else dict_get k t
  end.

(** [d[k] = v]: in place for a key already present, at the end otherwise. *)
Fixpoint dict_set (k : emp_key) (v : load) (d : emp_dict) : emp_dict :=
  match d with
  | [] => [(k, v)]
  | (k', v') :: t => if key_eqb k k' then (k', v) :: t else (k', v') :: dict_set k v t
  end.

(** The four statements that record one parsed pair:
    [if key not in d: d[key] = {'total_mm': 0, 'projects': []}], then
    [+= mm] on the total and [append] on the project list. *)
Definition add_allocation (key : emp_key) (project : string) (mm : pyfloat)
           (d : emp_dict) : emp_dict :=
  let cur := match dict_get key d with
             | Some e => e
             | None => mk_load (Fin 0) []
             end in
  dict_set key (mk_load (fadd (total_mm cur) mm) (projects cur ++ [(project, mm)])) d.

(** What the body of [for emp_part in emp_parts] does with one segment up to
    the dictionary update. *)
Inductive part_outcome : Type :=
| Skipped                                  (* the [if] guard is false *)
| Parsed (name : string) (mm : pyfloat)
| Raised.                                  (* [float] raised [ValueError] *)

Definition parse_part (emp_part : string) : part_outcome :=
  if contains "(" emp_part && contains ")" emp_part then
    let name := strip (nth 0 (split "(" emp_part) "") in
    match float (nth 0 (split ")" (nth 1 (split "(" emp_part) "")) "") with
    | Some mm => Parsed name mm
    | None => Raised
    end
  else Skipped.

(** [[e.strip() for e in str(text).split(',')]] *)
Definition segments (text : string) : list string := map strip (split "," text).

(** The inner loop under the row's [try]: a segment that raises ends the
    loop ([except: pass]) and keeps the updates made so far. *)
Fixpoint process_parts (project date : string) (emp_parts : list string)
         (d : emp_dict) : emp_dict :=
  match emp_parts with
  | [] => d
  | emp_part :: rest =>
      match parse_part emp_part with
      | Skipped => process_parts project date rest d
      | Parsed name mm =>
          process_parts project date rest (add_allocation (name, date) project mm d)
      | Raised => d
      end
  end.

(** One iteration of [for _, row in alloc.iterrows()]. *)
Definition process_row (d : emp_dict) (row : alloc_row) : emp_dict :=
  match Employees row with
  | Some text =>
      if is_empty text then d
      else process_parts (Project row) (Date row) (segments text) d
  | None => d
  end.

Definition employee_allocations (alloc : list alloc_row) : emp_dict :=
  fold_left process_row alloc [].

(** The pairs one annotation contributes, in order: the view of the inner
    loop as a parser of the annotation text. *)
Fixpoint parsed_pairs (emp_parts : list string) : list (string * pyfloat) :=
  match emp_parts with
  | [] => []
  | emp_part :: rest =>
      match parse_part emp_part with
      | Skipped => parsed_pairs rest
      | Parsed name mm => (name, mm) :: parsed_pairs rest
      | Raised => []
      end
  end.

Definition parse_employee_annotation (text : string) : list (string * pyfloat) :=
  parsed_pairs (segments text).


(** [sum(mm for _, mm in projects)]: the efforts of a project list added up
    in list order from 0, the way the running total is built. *)
Definition fsum (l : list pyfloat) : pyfloat := fold_left fadd l (Fin 0).

Definition load_consistent (e : load) : Prop :=
  total_mm e = fsum (map snd (projects e)).

Definition dict_consistent (d : emp_dict) : Prop :=
  Forall (fun item => load_consistent (snd item)) d.

(** An element of the list [conflicts]. *)
Record conflict : Type := mk_conflict {
  employee : string;
  month : string;
  conflict_total_mm : pyfloat;
  percent : pyfloat;
  conflict_projects : list (string * pyfloat)
}.

(** Full-time load, in man-months per month. *)
Definition full_time : pyfloat := Fin 4.

(** [(x / 4.0) * 100] *)
Definition percent_of_full_time (x : pyfloat) : pyfloat :=
  fmul (fdiv x full_time) (Fin 100).

(** The list [conflicts] after the loop
    [for (emp, date), data in employee_allocations.items()]; [acc] is the
    list as built so far. *)
Definition conflicts (employee_allocations : emp_dict) : list conflict :=
  fold_left
    (fun acc item =>
       let '((emp, date), data) := item in
       if fgt (total_mm data) full_time
       then (acc ++ [mk_conflict emp date (total_mm data)
                                 (percent_of_full_time (total_mm data))
                                 (projects data)])%list
       else acc)
    employee_allocations [].

(** The conflict emitted for an entry, and the test that emits it. *)
Definition conflict_of (item : emp_key * load) : conflict :=
  mk_conflict (fst (fst item)) (snd (fst item)) (total_mm (snd item))
              (percent_of_full_time (total_mm (snd item))) (projects (snd item)).

Definition overloaded (item : emp_key * load) : bool :=
  fgt (total_mm (snd item)) full_time.

(** The class of one cell of the utilisation grid. *)
Definition cell_class (pct : pyfloat) : string :=
  if feq pct (Fin 0) then ""
  else if flt pct (Fin 50) then "low"
  else if flt pct (Fin 75) then "medium"
  else if fle pct (Fin 100) then "high"
  else "over".

(** The band as the specification names it: the four classes by their own
    names, and "none" for the empty class of an idle cell. *)
Definition band (pct : pyfloat) : string :=
  let c := cell_class pct in
  if is_empty c then "none" else c.

(** The grid's lookup of one (employee, month) cell: the last matching entry
    of the dictionary, 0 when there is none, as a percentage. *)
Definition month_pct (d : emp_dict) (employee month : string) : pyfloat :=
  let month_mm :=
    fold_left (fun acc item =>
                 if String.eqb (fst (fst item)) employee && String.eqb (snd (fst item)) month
                 then total_mm (snd item) else acc)
              d (Fin 0) in
  percent_of_full_time month_mm.

(* ===================================================================== *)
(** * Capacity planning *)
(* ===================================================================== *)

(** The session data behind one rendering of the page, with the value of the
    department selector. *)
Record session : Type := mk_session {
  alloc : list alloc_row;
  meta : list meta_row;
  dept : string
}.

(** [meta_view]: the projects of the selected department, or all of them. *)
Definition meta_view (st : session) : list meta_row :=
  if negb (String.eqb (dept st) "All")
  then filter (fun r => String.eqb (Department r) (dept st)) (meta st)
  else meta st.

(** [alloc[(alloc["Date"] == active_month) & alloc["Project"].isin(meta_view["Project"])]] *)
Definition active (st : session) (active_month : string) : list alloc_row :=
  filter (fun r => String.eqb (Date r) active_month
                   && mem (Project r) (map meta_Project (meta_view st)))
         (alloc st).

(** [alloc[alloc['Date'] == month]['MM'].sum()] *)
Definition month_total (alloc : list alloc_row) (month : string) : Q :=
  Qsum (map MM (filter (fun r => String.eqb (Date r) month) alloc)).

Record capacity : Type := mk_capacity {
  capacity_month : string;
  capacity_total_mm : Q;
  available : Q
}.

(** [capacity_data], over [all_months[:6]]. *)
Definition capacity_data (st : session) (all_months : list string) : list capacity :=
  map (fun month => mk_capacity month (month_total (alloc st) month) 40)
      (firstn 6 all_months).

(** Monthly demand as the specification words it: every record adds its
    effort when its month matches, and nothing otherwise. *)
Definition monthly_demand (records : list alloc_row) (month : string) : Q :=
  fold_right (fun r acc => ((if String.eqb (Date r) month then MM r else 0) + acc)%Q)
             0%Q records.

(* ===================================================================== *)
(** * Rendering helpers: phases and departments *)
(* ===================================================================== *)

(** [c.upper()] and the string methods [s.lower()], [s.upper()],
    [s.startswith(p)] and [needle in s], on ASCII text. *)
Definition upper_char (c : ascii) : ascii :=
  if (97 <=? code c) && (code c <=? 122)
  then ascii_of_N (N_of_ascii c - 32) else c.

Definition str_lower (s : string) : string := map_str lower s.
Definition str_upper (s : string) : string := map_str upper_char s.

Definition startswith (p s : string) : bool := String.prefix p s.

Fixpoint contains_str (needle s : string) : bool :=
  String.prefix needle s
  || match s with
     | EmptyString => false
     | String _ r => contains_str needle r
     end.

(** [PHASES] *)
Definition PHASES : list string :=
  ["Planning"; "Design"; "Development"; "Testing"; "Delivery"].

(** [f"<span class='badge {cls}'>{txt}</span>"] *)
Definition badge_html (cls txt : string) : string :=
  "<span class='badge " ++ cls ++ "'>" ++ txt ++ "</span>".

(** [phase_badge(phase)] *)
Definition phase_badge (phase : string) : string :=
  let pm := str_lower phase in
  if String.eqb pm "planning" then badge_html "plan" "Planning"
  else if String.eqb pm "design" then badge_html "design" "Design"
  else if String.eqb pm "development" then badge_html "dev" "Development"
  else if String.eqb pm "testing" then badge_html "test" "Testing"
  else if String.eqb pm "delivery" then badge_html "deliv" "Delivery"
  else "".

(** The cells of the heat map, ["<div class='cell {cls}'>{txt}</div>"]. *)
Definition cell_div (cls txt : string) : string :=
  "<div class='cell " ++ cls ++ "'>" ++ txt ++ "</div>".

(** [cell_html(phase)], the local function of the heat map, on the result of
    [month_phase]. *)
Definition cell_html (phase : option string) : string :=
  match phase with
  | None => cell_div "idle" "Idle"
  | Some phase =>
      if is_empty phase || String.eqb (str_lower phase) "idle"
      then cell_div "idle" "Idle"
      else
        let phase_lower := str_lower phase in
        if String.eqb phase_lower "planning" then cell_div "plan" "Planning"
        else if String.eqb phase_lower "design" then cell_div "design" "Design"
        else if String.eqb phase_lower "development" then cell_div "dev" "Development"
        else if String.eqb phase_lower "testing" then cell_div "test" "Testing"
        else if String.eqb phase_lower "delivery" then cell_div "deliv" "Delivery"
        else cell_div "idle" "Idle"
  end.

(** The bar class of the timeline:
    [{"planning": "plan", ...}.get(phase.lower(), "plan")]. *)
Definition bar_class (phase : string) : string :=
  let k := str_lower phase in
  if String.eqb k "planning" then "plan"
  else if String.eqb k "design" then "design"
  else if String.eqb k "development" then "dev"
  else if String.eqb k "testing" then "test"
  else if String.eqb k "delivery" then "deliv"
  else "plan".

(** The three badges of [dept_badge]. *)
Definition badge_sci : string := "<span class='dept-badge'>SCI & ENG</span>".
Definition badge_digital : string :=
  "<span class='dept-badge' style='color:#1d4ed8;background:#dbeafe;border-color:#bfdbfe;'>DIGITAL</span>".
Definition badge_pmo : string :=
  "<span class='dept-badge' style='color:#6b21a8;background:#f3e8ff;border-color:#e9d5ff;'>PMO</span>".

(** [dept_badge(dept)] *)
Definition dept_badge (dept : string) : string :=
  if startswith "SCI" (str_upper dept) then badge_sci
  else if contains_str "DIGITAL" (str_upper dept) then badge_digital
  else badge_pmo.

(* ===================================================================== *)
(** * The timeline query and its bars *)
(* ===================================================================== *)

(** The aggregation ["first"] of [groupby(...).agg]: the first cell of the
    group that is not NaN, NaN when there is none. *)
Fixpoint first_valid (cells : list (option string)) : option string :=
  match cells with
  | [] => None
  | Some s :: _ => Some s
  | None :: rest => first_valid rest
  end.

(** [rows.groupby("Phase").agg({"MM": "sum", "Employees": "first"})]:
    one line per phase, with the summed effort and the first annotation. *)
Definition groupby_phase_agg (rows : list alloc_row) : list (string * (Q * option string)) :=
  map (fun p => let g := filter (in_phase p) rows in
                (p, (Qsum (map MM g), first_valid (map Employees g))))
      (group_keys rows).

(** [month_mm_phase_employees(df_alloc, project, ym)]. The third component
    is [str(grp["Employees"].iloc[0])], the text of the first line's
    annotation cell: the annotation itself, or the text "nan" when no row of
    the winning phase has one. The frame always has an [Employees] column
    here, since the load adds it when it is absent. *)
Definition month_mm_phase_employees (df_alloc : list alloc_row) (project ym : string)
  : result (Q * option string * string) :=
  let rows := select_month df_alloc project ym in
  match rows with
  | [] => Ok (0%Q, None, "")
  | _ :: _ =>
      let grp := sort_values_desc (fun line => fst (snd line)) (groupby_phase_agg rows) in
      match grp with
      | [] => Raise IndexError
      | (phase, (mm, employees)) :: _ => Ok (mm, Some phase, str_cell employees)
      end
  end.

(** [min(a, b)] and [max(a, b)] of Python on two numbers: the first argument
    unless the second is strictly smaller (resp. larger). *)
Definition py_min (a b : Q) : Q := if negb (Qle_bool a b) then b else a.
Definition py_max (a b : Q) : Q := if negb (Qle_bool b a) then b else a.

(** The timeline draws a bar unless [mm <= 0 or not phase]. *)
Definition draws_bar (mm : Q) (phase : option string) : bool :=
  negb (Qle_bool mm 0
        || match phase with
           | None => true
           | Some p => is_empty p
           end).

(** [pct = min(100.0, (mm / float(full_height_mm)) * 100.0)] and the height
    [max(20, pct)] of the bar, in percent of the cell. [full_height_mm] is the
    sidebar setting, an integer between 1 and 48. *)
Definition bar_pct (mm : Q) (full_height_mm : Z) : Q :=
  py_min 100 (mm / inject_Z full_height_mm * 100).

Definition bar_height (mm : Q) (full_height_mm : Z) : Q :=
  py_max 20 (bar_pct mm full_height_mm).

(* ===================================================================== *)
(** * Headline counts and department totals *)
(* ===================================================================== *)

(** [Series.nunique()] of a column of strings. *)
Definition nunique (l : list string) : nat := List.length (nodup string_dec l).

(** [active_count], [total_projects] and [low_activity] of the KPI row. *)
Definition active_count (st : session) (active_month : string) : Z :=
  Z.of_nat (nunique (map Project (active st active_month))).

Definition total_projects (st : session) : Z :=
  Z.of_nat (nunique (map meta_Project (meta_view st))).

Definition low_activity (st : session) (active_month : string) : Z :=
  total_projects st - active_count st active_month.

(** The order of group keys: strictly increasing strings. *)
Definition lt_str (a b : string) : Prop := String.compare a b = Lt.

(** [meta_view.groupby('Department')['Total_MM'].sum()] and its [.sum()]. *)
Definition dept_keys (rows : list meta_row) : list string :=
  fold_left (fun keys r => insert_key (Department r) keys) rows [].

Definition dept_totals (rows : list meta_row) : list (string * Q) :=
  map (fun d => (d, Qsum (map Total_MM
                              (filter (fun r => String.eqb (Department r) d) rows))))
      (dept_keys rows).

Definition pie_total (st : session) : Q := Qsum (map snd (dept_totals (meta_view st))).

(** [meta_view['Total_MM'].sum()], the TOTAL BUDGET box. *)
Definition total_budget (st : session) : Q := Qsum (map Total_MM (meta_view st)).

(* ===================================================================== *)
(** * The employee grid *)
(* ===================================================================== *)

(** The name that the second scan of the annotations takes from a segment:
    any segment with a '(' counts, whatever follows. *)
Definition part_name (emp_part : string) : option string :=
  if contains "(" emp_part
  then Some (strip (nth 0 (split "(" emp_part) ""))
  else None.

Definition row_names (row : alloc_row) : list string :=
  match Employees row with
  | Some text =>
      if is_empty text then []
      else flat_map (fun p => match part_name p with
                              | Some name => [name]
                              | None => []
                              end)
                    (segments text)
  | None => []
  end.

(** [sorted(all_employees)]: the set of names, as the sorted list without
    repetition that the grid loops over. *)
Definition all_employees (alloc : list alloc_row) : list string :=
  fold_left (fun names row => fold_left (fun names n => insert_key n names)
                                        (row_names row) names)
            alloc [].

(* ===================================================================== *)
(** * Saving the edited view *)
(* ===================================================================== *)

(** The three filter widgets of the editor: ["All"] for no project or phase
    filter, the empty text for no date filter. *)
Record edit_filter : Type := mk_filter {
  filter_project : string;
  filter_phase : string;
  filter_date : string
}.

Definition filter_active (f : edit_filter) : bool :=
  negb (String.eqb (filter_project f) "All")
  || negb (String.eqb (filter_phase f) "All")
  || negb (is_empty (filter_date f)).

(** The mask of the "Save Changes" handler, which is also the selection that
    builds [filtered_alloc]. *)
Definition filter_mask (f : edit_filter) (r : alloc_row) : bool :=
  (String.eqb (filter_project f) "All" || String.eqb (Project r) (filter_project f))
  && (String.eqb (filter_phase f) "All" || cell_eqb (Phase r) (Some (filter_phase f)))
  && (is_empty (filter_date f) || String.eqb (Date r) (filter_date f)).

Definition filtered_alloc (f : edit_filter) (alloc_data : list alloc_row) : list alloc_row :=
  filter (filter_mask f) alloc_data.

(** The new [alloc_data] after "Save Changes", for main data that carries
    the default index (as after loading and after every filtered save): the
    rows outside the mask, then the edited rows; without a filter, the edited
    frame alone. *)
Definition save_changes (f : edit_filter) (edited_alloc alloc_data : list alloc_row)
  : list alloc_row :=
  if filter_active f
  then (filter (fun r => negb (filter_mask f r)) alloc_data ++ edited_alloc)%list
  else edited_alloc.

(* ===================================================================== *)
(** * Contributions: what the aggregation is fed and what it holds *)
(* ===================================================================== *)

(** The pairs that the aggregation loop reads from one record. *)
Definition row_pairs (row : alloc_row) : list (string * pyfloat) :=
  match Employees row with
  | Some text => if is_empty text then [] else parse_employee_annotation text
  | None => []
  end.

(** One contribution: the (employee, date) key with the (project, effort)
    pair recorded under it. *)
Definition contribution : Type := (emp_key * (string * pyfloat))%type.

Definition row_contributions (row : alloc_row) : list contribution :=
  map (fun nm => ((fst nm, Date row), (Project row, snd nm))) (row_pairs row).

(** All the (project, effort) pairs held in a dictionary, each with the key
    of its entry. *)
Definition contributions (d : emp_dict) : list contribution :=
  flat_map (fun item => map (fun pm => (fst item, pm)) (projects (snd item))) d.

(* ===================================================================== *)
(** * Sums of efforts *)
(* ===================================================================== *)

Section Sums.

Lemma Qsum_acc (l : list Q) (a : Q) :
  (fold_left Qplus l a == a + Qsum l)%Q.
Proof.
  unfold Qsum. revert a. induction l as [|x l IH]; intros a; simpl.
  - ring.
  - rewrite IH, (IH (0 + x)%Q). ring.
Qed.

Lemma Qsum_cons (x : Q) (l : list Q) : (Qsum (x :: l) == x + Qsum l)%Q.
Proof. unfold Qsum at 1. simpl. rewrite Qsum_acc. ring. Qed.

Lemma Qsum_app (l1 l2 : list Q) : (Qsum (l1 ++ l2) == Qsum l1 + Qsum l2)%Q.
Proof.
  unfold Qsum at 1. rewrite fold_left_app, Qsum_acc. reflexivity.
Qed.

(** Adding finite floats one by one gives the finite float of the exact
    sum. *)
Lemma fsum_finite_acc (qs : list Q) (a : Q) :
  exists q, fold_left fadd (map Fin qs) (Fin a) = Fin q /\ (q == a + Qsum qs)%Q.
Proof.
  revert a. induction qs as [|x qs IH]; intros a; simpl.
  - exists a. split; [reflexivity|]. unfold Qsum. simpl. ring.
  - destruct (IH (Qred (a + x))) as [q [E Hq]]. exists q. split; [exact E|].
    rewrite Hq, Qred_correct, Qsum_cons. ring.
Qed.

Lemma fsum_finite (qs : list Q) :
  exists q, fsum (map Fin qs) = Fin q /\ (q == Qsum qs)%Q.
Proof.
  destruct (fsum_finite_acc qs 0) as [q [E Hq]]. exists q. split; [exact E|].
  rewrite Hq. ring.
Qed.

End Sums.

(* ===================================================================== *)
(** * Calendar utility: properties *)
(* ===================================================================== *)

Section CalendarFacts.

Lemma range_forallb (P : Z -> bool) (n : Z) :
  forallb P (range n) = true -> forall z, 0 <= z < n -> P z = true.
Proof.
  intros H z Hz. rewrite forallb_forall in H. apply H.
  unfold range. apply in_map_iff. exists (Z.to_nat z). split; [lia|].
  apply in_seq. lia.
Qed.

Lemma split_single (sep : ascii) (s : string) :
  contains sep s = false -> split sep s = [s].
Proof.
  induction s as [|c r IH]; simpl; [reflexivity|].
  intros H. apply orb_false_iff in H. destruct H as [Hc Hr].
  rewrite Hc, (IH Hr). reflexivity.
Qed.

Lemma split_two (sep : ascii) (a b : string) :
  contains sep a = false -> contains sep b = false ->
  split sep (a ++ String sep b) = [a; b].
Proof.
  intros Ha Hb. induction a as [|c r IH]; simpl.
  - rewrite Ascii.eqb_refl, (split_single _ _ Hb). reflexivity.
  - simpl in Ha. apply orb_false_iff in Ha. destruct Ha as [Hc Hr].
    rewrite Hc, (IH Hr). reflexivity.
Qed.

(** Rendering then reading a four-digit year, or a month, gives the number
    back, and the rendering holds no dash. Both ranges are finite and are
    checked by evaluation. *)
Lemma year_roundtrip (y : Z) :
  0 <= y <= 9999 ->
  Py.int (format_0d 4 y) = Some y /\ contains "-" (format_0d 4 y) = false.
Proof.
  intros Hy.
  assert (H : forallb (fun y => match Py.int (format_0d 4 y) with
                                | Some v => (v =? y) && negb (contains "-" (format_0d 4 y))
                                | None => false
                                end) (range 10000) = true)
    by (vm_compute; reflexivity).
  pose proof (range_forallb _ _ H y ltac:(lia)) as Hc. cbv beta in Hc.
  destruct (Py.int (format_0d 4 y)) as [v|]; [|discriminate].
  apply andb_true_iff in Hc. destruct Hc as [Hv Hd].
  apply Z.eqb_eq in Hv. apply negb_true_iff in Hd. subst v. split; [reflexivity|exact Hd].
Qed.

Lemma month_roundtrip (m : Z) :
  0 <= m <= 99 ->
  Py.int (format_0d 2 m) = Some m /\ contains "-" (format_0d 2 m) = false.
Proof.
  intros Hm.
  assert (H : forallb (fun m => match Py.int (format_0d 2 m) with
                                | Some v => (v =? m) && negb (contains "-" (format_0d 2 m))
                                | None => false
                                end) (range 100) = true)
    by (vm_compute; reflexivity).
  pose proof (range_forallb _ _ H m ltac:(lia)) as Hc. cbv beta in Hc.
  destruct (Py.int (format_0d 2 m)) as [v|]; [|discriminate].
  apply andb_true_iff in Hc. destruct Hc as [Hv Hd].
  apply Z.eqb_eq in Hv. apply negb_true_iff in Hd. subst v. split; [reflexivity|exact Hd].
Qed.

Lemma parse_format_ym (y m : Z) :
  0 <= y <= 9999 -> 1 <= m <= 12 -> parse_ym (format_ym y m) = Some (y, m).
Proof.
  intros Hy Hm.
  destruct (year_roundtrip y Hy) as [Iy Dy].
  destruct (month_roundtrip m ltac:(lia)) as [Im Dm].
  unfold parse_ym, format_ym.
  change (format_0d 4 y ++ "-" ++ format_0d 2 m)
    with (format_0d 4 y ++ String "-" (format_0d 2 m)).
  rewrite (split_two _ _ _ Dy Dm), Iy, Im. reflexivity.
Qed.

(** The quotient-and-remainder indexing of [yms] takes one calendar step
    per index. *)
Lemma yms_index_step (y m i : Z) :
  1 <= m <= 12 -> 0 <= i ->
  Calendar.next_month (y + (m - 1 + i) / 12, (m - 1 + i) mod 12 + 1)
  = (y + (m - 1 + (i + 1)) / 12, (m - 1 + (i + 1)) mod 12 + 1).
Proof.
  intros Hm Hi. unfold Calendar.next_month.
  destruct (Z.eqb_spec ((m - 1 + i) mod 12 + 1) 12) as [E|E];
    f_equal; Z.div_mod_to_equations; lia.
Qed.

Lemma yms_body_walk (y m : Z) (k i0 : nat) :
  1 <= m <= 12 ->
  map (fun i => let yy := y + (m - 1 + i) / 12 in
                let mm := (m - 1 + i) mod 12 + 1 in
                format_ym yy mm)
      (map Z.of_nat (seq i0 k))
  = map Calendar.token
        (Calendar.months_from
           (y + (m - 1 + Z.of_nat i0) / 12, (m - 1 + Z.of_nat i0) mod 12 + 1) k).
Proof.
  intros Hm. revert i0. induction k as [|k IH]; intros i0; [reflexivity|].
  cbn [map seq Calendar.months_from]. f_equal.
  rewrite IH, (yms_index_step y m (Z.of_nat i0)) by lia.
  replace (Z.of_nat (S i0)) with (Z.of_nat i0 + 1) by lia. reflexivity.
Qed.

Lemma months_from_length (t : Calendar.ym) (k : nat) :
  List.length (Calendar.months_from t k) = k.
Proof. revert t. induction k; intros t; simpl; [|rewrite IHk]; reflexivity. Qed.

End CalendarFacts.

(** C6. For a valid [YYYY-MM] start token and a count [n >= 0], [yms] returns
    the tokens of the [n] consecutive calendar months that start at the start
    month, each one calendar step (December rolling to January of the next
    year) after the one before: exactly [n] tokens, none for [n = 0], the
    start token first; and [yms("2025-11", 3)] is
    ["2025-11", "2025-12", "2026-01"]. *)
Theorem yms_walks_the_calendar (t : Calendar.ym) (n : Z) :
  Calendar.valid t -> 0 <= n ->
  exists out,
    yms (Calendar.token t) n = Some out
    /\ out = map Calendar.token (Calendar.months_from t (Z.to_nat n))
    /\ Z.of_nat (List.length out) = n
    /\ (n = 0 -> out = [])
    /\ (0 < n -> hd_error out = Some (Calendar.token t))
    /\ yms "2025-11" 3 = Some ["2025-11"; "2025-12"; "2026-01"].
Proof.
  intros [Hy Hm] Hn. destruct t as [y m]. simpl in Hy, Hm.
  exists (map Calendar.token (Calendar.months_from (y, m) (Z.to_nat n))).
  split.
  - unfold yms. change (Calendar.token (y, m)) with (format_ym y m).
    rewrite (parse_format_ym y m Hy Hm). cbv iota beta. f_equal.
    unfold range. pose proof (yms_body_walk y m (Z.to_nat n) 0 Hm) as W.
    cbv zeta in W. rewrite W.
    change (Z.of_nat 0) with 0. rewrite Z.add_0_r.
    replace ((m - 1) / 12) with 0 by (Z.div_mod_to_equations; lia).
    replace ((m - 1) mod 12 + 1) with m by (Z.div_mod_to_equations; lia).
    rewrite Z.add_0_r. reflexivity.
  - split; [reflexivity|]. split.
    + rewrite length_map, months_from_length. lia.
    + split; [intros ->; reflexivity|]. split.
      * intros Hpos. destruct (Z.to_nat n) eqn:E; [lia|]. reflexivity.
      * vm_compute. reflexivity.
Qed.

Lemma yms_walks_the_calendar_witness :
  exists out,
    yms (Calendar.token (2025, 11)) 3 = Some out
    /\ out = map Calendar.token (Calendar.months_from (2025, 11) (Z.to_nat 3))
    /\ Z.of_nat (List.length out) = 3
    /\ (3 = 0 -> out = [])
    /\ (0 < 3 -> hd_error out = Some (Calendar.token (2025, 11)))
    /\ yms "2025-11" 3 = Some ["2025-11"; "2025-12"; "2026-01"].
Proof.
  apply (yms_walks_the_calendar (2025, 11) 3).
  - unfold Calendar.valid; simpl; lia.
  - lia.
Defined.

(** C7. On a valid [YYYY-MM] token the +1 handler moves December to January
    of the next year and any other month to the next month of the same year;
    the -1 handler moves January to December of the previous year and any
    other month to the previous month of the same year. In particular
    2025-01 shifted back is 2024-12 and 2025-12 shifted forward is 2026-01. *)
Theorem shift_rolls_the_year (y m : Z) :
  0 <= y <= 9999 -> 1 <= m <= 12 ->
  (m = 12 -> shift_forward (format_ym y m) = Some (format_ym (y + 1) 1))
  /\ (m < 12 -> shift_forward (format_ym y m) = Some (format_ym y (m + 1)))
  /\ (m = 1 -> shift_backward (format_ym y m) = Some (format_ym (y - 1) 12))
  /\ (1 < m -> shift_backward (format_ym y m) = Some (format_ym y (m - 1)))
  /\ shift_backward "2025-01" = Some "2024-12"
  /\ shift_forward "2025-12" = Some "2026-01".
Proof.
  intros Hy Hm. unfold shift_forward, shift_backward.
  rewrite (parse_format_ym y m Hy Hm). cbv zeta.
  repeat split.
  - intros ->. reflexivity.
  - intros H. destruct (Z.gtb_spec (m + 1) 12); [lia|reflexivity].
  - intros ->. reflexivity.
  - intros H. destruct (Z.ltb_spec (m - 1) 1); [lia|reflexivity].
Qed.

Lemma shift_rolls_the_year_witness :
  (12 = 12 -> shift_forward (format_ym 2025 12) = Some (format_ym (2025 + 1) 1))
  /\ (12 < 12 -> shift_forward (format_ym 2025 12) = Some (format_ym 2025 (12 + 1)))
  /\ (12 = 1 -> shift_backward (format_ym 2025 12) = Some (format_ym (2025 - 1) 12))
  /\ (1 < 12 -> shift_backward (format_ym 2025 12) = Some (format_ym 2025 (12 - 1)))
  /\ shift_backward "2025-01" = Some "2024-12"
  /\ shift_forward "2025-12" = Some "2026-01".
Proof.
  apply (shift_rolls_the_year 2025 12); lia.
Defined.

(* ===================================================================== *)
(** * Bulk month shift: properties *)
(* ===================================================================== *)

Section BulkShiftFacts.

Variable shift : string -> option string.

Lemma shift_row_failure (alloc_data : list alloc_row) (row : alloc_row) :
  shift (Date row) = None -> shift_row shift alloc_data row = alloc_data.
Proof. intros H. unfold shift_row. rewrite H. reflexivity. Qed.

Lemma shift_selected_app (pre post alloc_data : list alloc_row) :
  shift_selected shift (pre ++ post) alloc_data
  = shift_selected shift post (shift_selected shift pre alloc_data).
Proof. unfold shift_selected. apply fold_left_app. Qed.

(** A row of the main data whose own date cannot be shifted is never the
    target of an update: the mask selects rows by a date that did parse. *)
Lemma shift_row_keeps (alloc_data : list alloc_row) (row r : alloc_row) (i : nat) :
  nth_error alloc_data i = Some r -> shift (Date r) = None ->
  nth_error (shift_row shift alloc_data row) i = Some r.
Proof.
  intros Hi Hr. unfold shift_row.
  destruct (shift (Date row)) as [new_date|] eqn:E; [|exact Hi].
  unfold set_date_where. rewrite nth_error_map, Hi. simpl.
  destruct (String.eqb_spec (Date r) (Date row)) as [D|D].
  - rewrite D, E in Hr. discriminate.
  - rewrite andb_false_r. reflexivity.
Qed.

Lemma shift_selected_keeps (edited_alloc alloc_data : list alloc_row)
      (r : alloc_row) (i : nat) :
  nth_error alloc_data i = Some r -> shift (Date r) = None ->
  nth_error (shift_selected shift edited_alloc alloc_data) i = Some r.
Proof.
  revert alloc_data. unfold shift_selected.
  induction edited_alloc as [|row rest IH]; intros alloc_data Hi Hr; [exact Hi|].
  simpl. apply IH; [|exact Hr]. apply shift_row_keeps; assumption.
Qed.

Lemma shift_selected_skips (pre post alloc_data : list alloc_row) (row : alloc_row) :
  shift (Date row) = None ->
  shift_selected shift (pre ++ row :: post) alloc_data
  = shift_selected shift (pre ++ post) alloc_data.
Proof.
  intros H. rewrite !shift_selected_app. unfold shift_selected at 1. simpl.
  rewrite (shift_row_failure _ _ H). reflexivity.
Qed.

End BulkShiftFacts.

Lemma shift_forward_failure (d : string) : parse_ym d = None -> shift_forward d = None.
Proof. intros H. unfold shift_forward. rewrite H. reflexivity. Qed.

Lemma shift_backward_failure (d : string) : parse_ym d = None -> shift_backward d = None.
Proof. intros H. unfold shift_backward. rewrite H. reflexivity. Qed.

(** C8. In both bulk handlers a selected row whose date does not parse is
    handled on its own: its iteration leaves the main data as it was, the
    rows selected after it are processed exactly as if it had not been
    selected, and every record of the main data whose date does not parse
    comes out of the whole batch unmodified and in place. The batch, a total
    function, always runs to its end. *)
Theorem bulk_shift_skips_malformed_dates
        (row : alloc_row) (pre post alloc_data : list alloc_row) :
  parse_ym (Date row) = None ->
  (shift_row shift_forward alloc_data row = alloc_data
   /\ shift_selected shift_forward (pre ++ row :: post) alloc_data
      = shift_selected shift_forward post (shift_selected shift_forward pre alloc_data)
   /\ (forall i r, nth_error alloc_data i = Some r -> parse_ym (Date r) = None ->
         nth_error (shift_selected shift_forward (pre ++ row :: post) alloc_data) i = Some r))
  /\
  (shift_row shift_backward alloc_data row = alloc_data
   /\ shift_selected shift_backward (pre ++ row :: post) alloc_data
      = shift_selected shift_backward post (shift_selected shift_backward pre alloc_data)
   /\ (forall i r, nth_error alloc_data i = Some r -> parse_ym (Date r) = None ->
         nth_error (shift_selected shift_backward (pre ++ row :: post) alloc_data) i = Some r)).
Proof.
  intros H. split.
  - pose proof (shift_forward_failure _ H) as F. split; [|split].
    + apply shift_row_failure, F.
    + rewrite (shift_selected_skips _ _ _ _ _ F). apply shift_selected_app.
    + intros i r Hi Hr. apply shift_selected_keeps; [exact Hi|].
      apply shift_forward_failure, Hr.
  - pose proof (shift_backward_failure _ H) as F. split; [|split].
    + apply shift_row_failure, F.
    + rewrite (shift_selected_skips _ _ _ _ _ F). apply shift_selected_app.
    + intros i r Hi Hr. apply shift_selected_keeps; [exact Hi|].
      apply shift_backward_failure, Hr.
Qed.

Lemma bulk_shift_skips_malformed_dates_witness :
  let good := mk_alloc "BIORADAR" "2025-12" (Some "Design") 2 None in
  let bad := mk_alloc "ENERGIZE" "Dec 2025" (Some "Testing") 3 None in
  let data := [good; bad] in
  parse_ym (Date bad) = None
  /\ shift_selected shift_forward ([good] ++ bad :: [good]) data
     = [mk_alloc "BIORADAR" "2026-01" (Some "Design") 2 None; bad]
  /\ (shift_row shift_forward data bad = data
      /\ shift_selected shift_forward ([good] ++ bad :: [good]) data
         = shift_selected shift_forward [good] (shift_selected shift_forward [good] data)
      /\ (forall i r, nth_error data i = Some r -> parse_ym (Date r) = None ->
            nth_error (shift_selected shift_forward ([good] ++ bad :: [good]) data) i = Some r))
  /\ (shift_row shift_backward data bad = data
      /\ shift_selected shift_backward ([good] ++ bad :: [good]) data
         = shift_selected shift_backward [good] (shift_selected shift_backward [good] data)
      /\ (forall i r, nth_error data i = Some r -> parse_ym (Date r) = None ->
            nth_error (shift_selected shift_backward ([good] ++ bad :: [good]) data) i = Some r)).
Proof.
  cbv zeta. split; [reflexivity|]. split; [vm_compute; reflexivity|].
  apply (bulk_shift_skips_malformed_dates
           (mk_alloc "ENERGIZE" "Dec 2025" (Some "Testing") 3 None)
           [mk_alloc "BIORADAR" "2025-12" (Some "Design") 2 None]
           [mk_alloc "BIORADAR" "2025-12" (Some "Design") 2 None]).
  reflexivity.
Defined.

(* ===================================================================== *)
(** * Column check: properties *)
(* ===================================================================== *)

Lemma mem_In (x : string) (l : list string) : mem x l = true <-> In x l.
Proof.
  unfold mem. rewrite existsb_exists. split.
  - intros [y [Hy E]]. apply String.eqb_eq in E. subst y. exact Hy.
  - intros H. exists x. split; [exact H|apply String.eqb_refl].
Qed.

Lemma missing_spec (columns required : list string) (c : string) :
  In c (filter (fun c => negb (mem c columns)) required)
  <-> In c required /\ ~ In c columns.
Proof.
  rewrite filter_In, negb_true_iff, <- not_true_iff_false, mem_In. reflexivity.
Qed.

Lemma ensure_columns_raises (columns required : list string) (name : string) :
  let missing := filter (fun c => negb (mem c columns)) required in
  missing <> [] ->
  ensure_columns columns required name
  = Raise (ValueError (name ++ " is missing required columns: " ++ join ", " missing)).
Proof.
  cbv zeta. unfold ensure_columns.
  destruct (filter _ required); [congruence|reflexivity].
Qed.

Lemma ensure_columns_passes (columns required : list string) (name : string) :
  filter (fun c => negb (mem c columns)) required = [] ->
  ensure_columns columns required name = Ok tt.
Proof. unfold ensure_columns. intros ->. reflexivity. Qed.

(** Adding the optional [Employees] column changes nothing for the required
    allocation columns. *)
Lemma alloc_missing_with_employees (alloc_columns : list string) :
  filter (fun c => negb (mem c (alloc_columns ++ ["Employees"])%list)) alloc_required
  = filter (fun c => negb (mem c alloc_columns)) alloc_required.
Proof.
  apply filter_ext_in. intros c Hc. f_equal. unfold mem.
  rewrite existsb_app. simpl. rewrite orb_false_r.
  destruct Hc as [<-|[<-|[<-|[<-|[]]]]]; simpl; apply orb_false_r.
Qed.

(** The error text: [", ".join(missing)] writes every missing column out,
    so each of them can be read in the message. *)
Lemma prefix_app (n y : string) : String.prefix n (n ++ y) = true.
Proof.
  induction n as [|a n IH]; simpl.
  - destruct y; reflexivity.
  - destruct (ascii_dec a a) as [_|N]; [exact IH|congruence].
Qed.

Lemma prefix_app_l (n x y : string) :
  String.prefix n x = true -> String.prefix n (x ++ y) = true.
Proof.
  revert x. induction n as [|a n IH]; intros x H.
  - destruct (x ++ y); reflexivity.
  - destruct x as [|b x]; [discriminate|]. simpl in *.
    destruct (ascii_dec a b); [apply IH; exact H|discriminate].
Qed.

Lemma contains_str_unfold (n s : string) :
  contains_str n s
  = String.prefix n s
    || match s with EmptyString => false | String _ r => contains_str n r end.
Proof. destruct s; reflexivity. Qed.

Lemma contains_str_app_l (n x y : string) :
  contains_str n x = true -> contains_str n (x ++ y) = true.
Proof.
  induction x as [|b x IH]; intros H.
  - rewrite contains_str_unfold in H. rewrite orb_false_r in H.
    destruct n; [|discriminate].
    rewrite contains_str_unfold. destruct ("" ++ y); reflexivity.
  - rewrite contains_str_unfold in H. apply orb_true_iff in H.
    rewrite contains_str_unfold. apply orb_true_iff. destruct H as [H|H].
    + left. apply prefix_app_l. exact H.
    + right. simpl. apply IH. exact H.
Qed.

Lemma contains_str_app_r (n x y : string) :
  contains_str n y = true -> contains_str n (x ++ y) = true.
Proof.
  intros H. induction x as [|b x IH]; [exact H|].
  rewrite contains_str_unfold. apply orb_true_iff. right. exact IH.
Qed.

Lemma contains_str_here (n y : string) : contains_str n (n ++ y) = true.
Proof.
  rewrite contains_str_unfold. rewrite prefix_app. reflexivity.
Qed.

Lemma app_empty_r (s : string) : s ++ "" = s.
Proof. induction s as [|a s IH]; [reflexivity|]. simpl. rewrite IH. reflexivity. Qed.

Lemma join_cons (sep x : string) (l : list string) :
  join sep (x :: l) = match l with [] => x | _ :: _ => x ++ sep ++ join sep l end.
Proof. reflexivity. Qed.

Lemma contains_str_join (sep c : string) (l : list string) :
  In c l -> contains_str c (join sep l) = true.
Proof.
  induction l as [|x l IH]; intros H; [destruct H|].
  rewrite join_cons. destruct H as [->|H].
  - destruct l; [|apply contains_str_here].
    rewrite <- (app_empty_r c) at 2. apply contains_str_here.
  - destruct l as [|x' l]; [destruct H|].
    apply contains_str_app_r, contains_str_app_r, IH. exact H.
Qed.

(** Whatever the frame and its required columns: a required column that the
    frame lacks makes the check raise, and its name is in the message. *)
Lemma ensure_columns_names_missing (columns required : list string) (name c : string) :
  In c required -> ~ In c columns ->
  exists msg, ensure_columns columns required name = Raise (ValueError msg)
              /\ contains_str name msg = true
              /\ contains_str c msg = true.
Proof.
  intros Hr Hc.
  assert (Hin : In c (filter (fun c => negb (mem c columns)) required))
    by (apply missing_spec; split; assumption).
  exists (name ++ " is missing required columns: "
          ++ join ", " (filter (fun c => negb (mem c columns)) required)).
  split; [|split].
  - apply ensure_columns_raises. intros E. rewrite E in Hin. destruct Hin.
  - apply contains_str_here.
  - apply contains_str_app_r, contains_str_app_r, contains_str_join. exact Hin.
Qed.

Lemma ensure_columns_names_missing_witness :
  exists msg, ensure_columns ["Project"; "MM"] alloc_required "Allocations dataframe"
              = Raise (ValueError msg)
              /\ contains_str "Allocations dataframe" msg = true
              /\ contains_str "Phase" msg = true.
Proof.
  apply (ensure_columns_names_missing ["Project"; "MM"] alloc_required
                                       "Allocations dataframe" "Phase").
  - simpl. auto.
  - simpl. intros [H|[H|[]]]; discriminate.
Defined.

(** Of the required columns, the text of the error box holds the names of
    the missing ones and of no other. *)
Lemma meta_error_names (meta_columns : list string) (c : string) :
  In c meta_required ->
  contains_str c ("Data error: Meta dataframe is missing required columns: "
                  ++ join ", " (filter (fun c => negb (mem c meta_columns)) meta_required))
  = negb (mem c meta_columns).
Proof.
  unfold meta_required. cbn [filter].
  intros Hc.
  destruct (mem "Project" meta_columns) eqn:E1,
           (mem "Department" meta_columns) eqn:E2,
           (mem "Total_MM" meta_columns) eqn:E3;
    destruct Hc as [<-|[<-|[<-|[]]]];
    rewrite ?E1, ?E2, ?E3; vm_compute; reflexivity.
Qed.

Lemma alloc_error_names (alloc_columns : list string) (c : string) :
  In c alloc_required ->
  contains_str c ("Data error: Allocations dataframe is missing required columns: "
                  ++ join ", " (filter (fun c => negb (mem c alloc_columns)) alloc_required))
  = negb (mem c alloc_columns).
Proof.
  unfold alloc_required. cbn [filter].
  intros Hc.
  destruct (mem "Project" alloc_columns) eqn:E1,
           (mem "Date" alloc_columns) eqn:E2,
           (mem "Phase" alloc_columns) eqn:E3,
           (mem "MM" alloc_columns) eqn:E4;
    destruct Hc as [<-|[<-|[<-|[<-|[]]]]];
    rewrite ?E1, ?E2, ?E3, ?E4; vm_compute; reflexivity.
Qed.

Lemma names_iff (columns : list string) (c text : string) :
  contains_str c text = negb (mem c columns) ->
  (contains_str c text = true <-> ~ In c columns).
Proof.
  intros ->. rewrite negb_true_iff, <- not_true_iff_false, mem_In. reflexivity.
Qed.

(** C9, as the code has it. The two frames are checked one after the other,
    the meta frame first, and the first check that fails ends the script.
    When the meta frame lacks a required column the error box reads
    "Data error: Meta dataframe is missing required columns: " followed by
    the missing meta columns, in the order of the required list and
    separated by ", "; of the required meta columns it names the missing
    ones and no other, and the allocations frame is not looked at. When the
    meta frame is complete and the allocations frame lacks a required column
    the error box names the allocations frame and its missing columns in the
    same way. In both cases the rest of the script, where every aggregation
    lives, is not run: whatever that rest is, the outcome is the error box.
    The rest runs only when neither frame misses a column. The texts are
    written out for three inputs. *)
Theorem missing_columns_stop_the_load
        (A : Type) (meta_columns alloc_columns : list string) (rest : list string -> A) :
  let meta_missing := filter (fun c => negb (mem c meta_columns)) meta_required in
  let alloc_missing := filter (fun c => negb (mem c alloc_columns)) alloc_required in
  (forall c, In c meta_missing <-> In c meta_required /\ ~ In c meta_columns)
  /\ (forall c, In c alloc_missing <-> In c alloc_required /\ ~ In c alloc_columns)
  /\ (meta_missing <> [] ->
      ensure_columns meta_columns meta_required "Meta dataframe"
      = Raise (ValueError ("Meta dataframe is missing required columns: "
                           ++ join ", " meta_missing))
      /\ load_and_run meta_columns alloc_columns rest
         = Stopped ("Data error: Meta dataframe is missing required columns: "
                    ++ join ", " meta_missing)
      /\ (forall c, In c meta_required ->
            (contains_str c ("Data error: Meta dataframe is missing required columns: "
                             ++ join ", " meta_missing) = true
             <-> ~ In c meta_columns)))
  /\ (meta_missing = [] -> alloc_missing <> [] ->
      ensure_columns alloc_columns alloc_required "Allocations dataframe"
      = Raise (ValueError ("Allocations dataframe is missing required columns: "
                           ++ join ", " alloc_missing))
      /\ load_and_run meta_columns alloc_columns rest
         = Stopped ("Data error: Allocations dataframe is missing required columns: "
                    ++ join ", " alloc_missing)
      /\ (forall c, In c alloc_required ->
            (contains_str c ("Data error: Allocations dataframe is missing required columns: "
                             ++ join ", " alloc_missing) = true
             <-> ~ In c alloc_columns)))
  /\ (forall page, load_and_run meta_columns alloc_columns rest = Rendered page ->
      meta_missing = [] /\ alloc_missing = [])
  /\ load_and_run ["Project"; "Total_MM"] ["Project"; "Date"; "Phase"; "MM"] rest
     = Stopped "Data error: Meta dataframe is missing required columns: Department"
  /\ load_and_run ["Project"; "Department"; "Total_MM"] ["Project"; "MM"] rest
     = Stopped "Data error: Allocations dataframe is missing required columns: Date, Phase"
  /\ load_and_run ["Department"] ["Project"; "Date"; "Phase"; "MM"] rest
     = Stopped "Data error: Meta dataframe is missing required columns: Project, Total_MM".
Proof.
  cbv zeta. split; [intros c; apply missing_spec|].
  split; [intros c; apply missing_spec|].
  split; [|split; [|split; [|repeat split; reflexivity]]].
  - intros Hm. split; [apply ensure_columns_raises; exact Hm|]. split.
    + unfold load_and_run. rewrite ensure_columns_raises by exact Hm. reflexivity.
    + intros c Hc. apply names_iff. apply (meta_error_names meta_columns c Hc).
  - intros Hm Ha. split; [apply ensure_columns_raises; exact Ha|]. split.
    + unfold load_and_run. rewrite (ensure_columns_passes _ _ _ Hm).
      destruct (mem "Employees" alloc_columns).
      * rewrite ensure_columns_raises by exact Ha. reflexivity.
      * rewrite ensure_columns_raises
          by (rewrite alloc_missing_with_employees; exact Ha).
        cbv zeta. rewrite alloc_missing_with_employees. reflexivity.
    + intros c Hc. apply names_iff. apply (alloc_error_names alloc_columns c Hc).
  - intros page. unfold load_and_run, ensure_columns at 1.
    destruct (filter _ meta_required) eqn:Em; [|discriminate].
    unfold ensure_columns.
    destruct (mem "Employees" alloc_columns).
    + destruct (filter _ alloc_required) eqn:Ea; [|discriminate]. auto.
    + rewrite alloc_missing_with_employees.
      destruct (filter _ alloc_required) eqn:Ea; [|discriminate]. auto.
Qed.

(** C9 as stated fails when both frames lack columns. The meta frame has only
    [Project] and the allocations frame only [Project] and [MM]: the
    allocations frame misses [Date] and [Phase], yet the error box is the one
    of the meta frame and names neither of them. *)
Lemma both_frames_incomplete_names_meta_only :
  let meta_columns := ["Project"] in
  let alloc_columns := ["Project"; "MM"] in
  let shown := "Data error: Meta dataframe is missing required columns: Department, Total_MM" in
  filter (fun c => negb (mem c alloc_columns)) alloc_required = ["Date"; "Phase"]
  /\ ensure_columns alloc_columns alloc_required "Allocations dataframe"
     = Raise (ValueError "Allocations dataframe is missing required columns: Date, Phase")
  /\ load_and_run meta_columns alloc_columns (fun columns => columns) = Stopped shown
  /\ contains_str "Date" shown = false
  /\ contains_str "Phase" shown = false
  /\ contains_str "Allocations" shown = false.
Proof. vm_compute. repeat split; reflexivity. Qed.

Example load_without_date_and_phase :
  load_and_run ["Project"; "Department"; "Total_MM"] ["Project"; "MM"]
               (fun columns => List.length columns)
  = Stopped "Data error: Allocations dataframe is missing required columns: Date, Phase".
Proof. vm_compute. reflexivity. Qed.

(* ===================================================================== *)
(** * Dominant phase: properties *)
(* ===================================================================== *)

Section DominantPhaseFacts.

Lemma insert_key_In (k x : string) (keys : list string) :
  In x (insert_key k keys) <-> x = k \/ In x keys.
Proof.
  induction keys as [|h t IH]; simpl; [intuition congruence|].
  destruct (String.compare k h) eqn:E; simpl.
  - apply String.compare_eq_iff in E. subst h. intuition congruence.
  - intuition congruence.
  - rewrite IH. intuition congruence.
Qed.

Lemma group_keys_acc_In (rows : list alloc_row) (acc : list string) (p : string) :
  In p (fold_left (fun keys r => match Phase r with
                                 | Some p => insert_key p keys
                                 | None => keys
                                 end) rows acc)
  <-> In p acc \/ exists r, In r rows /\ Phase r = Some p.
Proof.
  revert acc. induction rows as [|r rows IH]; intros acc; simpl.
  - split; [tauto|]. intros [H|[r [[] _]]]. exact H.
  - rewrite IH. destruct (Phase r) as [q|] eqn:E.
    + rewrite insert_key_In. split.
      * intros [[->|H]|[r' [H1 H2]]]; eauto.
      * intros [H|[r' [[<-|H1] H2]]]; eauto.
        left. left. congruence.
    + split.
      * intros [H|[r' [H1 H2]]]; eauto.
      * intros [H|[r' [[<-|H1] H2]]]; eauto. congruence.
Qed.

Lemma group_keys_In (rows : list alloc_row) (p : string) :
  In p (group_keys rows) <-> exists r, In r rows /\ Phase r = Some p.
Proof. unfold group_keys. rewrite group_keys_acc_In. simpl. tauto. Qed.

Context {A : Type} (value : A -> Q).

Lemma insert_desc_In (a x : A) (l : list A) :
  In x (insert_desc value a l) <-> x = a \/ In x l.
Proof.
  induction l as [|h t IH]; simpl; [intuition congruence|].
  destruct (Qle_bool (value h) (value a)); simpl; [intuition congruence|].
  rewrite IH. intuition congruence.
Qed.

Lemma sort_values_desc_In (x : A) (l : list A) :
  In x (sort_values_desc value l) <-> In x l.
Proof.
  induction l as [|a l IH]; simpl; [tauto|].
  rewrite insert_desc_In, IH. intuition congruence.
Qed.

Lemma insert_desc_tops (a : A) (l : list A) :
  tops value l -> tops value (insert_desc value a l).
Proof.
  destruct l as [|h t]; simpl.
  - intros _ y [<-|[]]. apply Qle_refl.
  - intros Hl. destruct (Qle_bool (value h) (value a)) eqn:E; simpl.
    + apply Qle_bool_iff in E. intros y [<-|Hy]; [apply Qle_refl|].
      apply Qle_trans with (value h); [apply Hl; exact Hy|exact E].
    + intros y [<-|Hy]; [apply Qle_refl|].
      apply insert_desc_In in Hy. destruct Hy as [->|Hy].
      * apply Qlt_le_weak, Qnot_le_lt. intros C.
        apply Qle_bool_iff in C. congruence.
      * apply Hl. right. exact Hy.
Qed.

Lemma sort_values_desc_tops (l : list A) : tops value (sort_values_desc value l).
Proof.
  induction l as [|a l IH]; simpl; [exact I|]. apply insert_desc_tops, IH.
Qed.

Lemma sort_values_desc_head (l : list A) (x : A) (rest : list A) :
  sort_values_desc value l = x :: rest ->
  In x l /\ forall y, In y l -> (value y <= value x)%Q.
Proof.
  intros E. split.
  - apply sort_values_desc_In. rewrite E. left. reflexivity.
  - intros y Hy. pose proof (sort_values_desc_tops l) as T. rewrite E in T.
    apply T. rewrite <- E. apply sort_values_desc_In, Hy.
Qed.

End DominantPhaseFacts.

(** The query on a project-month where some row carries a phase: the answer
    is a phase present among the matching rows, with the summed effort of the
    rows of that phase only, and no phase of the month has a larger sum. *)
Theorem dominant_phase_is_largest_group
        (df_alloc : list alloc_row) (project ym : string) (r0 : alloc_row) (p0 : string) :
  In r0 (select_month df_alloc project ym) -> Phase r0 = Some p0 ->
  exists phase mm,
    month_mm_and_phase df_alloc project ym = Ok (mm, Some phase)
    /\ (exists r, In r (select_month df_alloc project ym) /\ Phase r = Some phase)
    /\ mm = phase_effort (select_month df_alloc project ym) phase
    /\ forall r p, In r (select_month df_alloc project ym) -> Phase r = Some p ->
                   (phase_effort (select_month df_alloc project ym) p <= mm)%Q.
Proof.
  intros H0 P0. unfold month_mm_and_phase.
  set (rows := select_month df_alloc project ym) in *.
  destruct rows as [|r1 rows'] eqn:Erows; [destruct H0|]. rewrite <- Erows in *.
  destruct (sort_values_desc snd (groupby_phase_sum rows)) as [|[phase mm] rest] eqn:Es.
  - exfalso.
    assert (Hin : In (p0, phase_effort rows p0) (sort_values_desc snd (groupby_phase_sum rows))).
    { apply sort_values_desc_In. unfold groupby_phase_sum. apply in_map_iff.
      exists p0. split; [reflexivity|]. apply group_keys_In. eauto. }
    rewrite Es in Hin. destruct Hin.
  - destruct (sort_values_desc_head snd _ _ _ Es) as [Hin Hmax].
    unfold groupby_phase_sum in Hin. apply in_map_iff in Hin.
    destruct Hin as [p [Ep Hp]]. injection Ep as Ephase Emm. subst p.
    exists phase, mm. split; [reflexivity|]. split; [apply group_keys_In, Hp|].
    split; [symmetry; exact Emm|].
    intros r p Hr Pr.
    apply (Hmax (p, phase_effort rows p)).
    unfold groupby_phase_sum. apply in_map_iff. exists p. split; [reflexivity|].
    apply group_keys_In. eauto.
Qed.

Lemma dominant_phase_is_largest_group_witness :
  let df := [mk_alloc "BIORADAR" "2025-03" (Some "Design") 3 None;
             mk_alloc "BIORADAR" "2025-03" (Some "Testing") 5 None] in
  exists phase mm,
    month_mm_and_phase df "BIORADAR" "2025-03" = Ok (mm, Some phase)
    /\ (exists r, In r (select_month df "BIORADAR" "2025-03") /\ Phase r = Some phase)
    /\ mm = phase_effort (select_month df "BIORADAR" "2025-03") phase
    /\ forall r p, In r (select_month df "BIORADAR" "2025-03") -> Phase r = Some p ->
                   (phase_effort (select_month df "BIORADAR" "2025-03") p <= mm)%Q.
Proof.
  cbv zeta.
  apply (dominant_phase_is_largest_group _ "BIORADAR" "2025-03"
           (mk_alloc "BIORADAR" "2025-03" (Some "Design") 3 None) "Design").
  - left. reflexivity.
  - reflexivity.
Defined.

(** The specification's example: Design 3.0 and Testing 5.0 in one
    project-month give Testing with 5.0, the winning group's sum, where the
    sum over the whole month is 8.0. *)
Lemma dominant_phase_example :
  let df := [mk_alloc "BIORADAR" "2025-03" (Some "Design") 3 None;
             mk_alloc "BIORADAR" "2025-03" (Some "Testing") 5 None] in
  month_mm_and_phase df "BIORADAR" "2025-03" = Ok (5%Q, Some "Testing")
  /\ Qsum (map MM (select_month df "BIORADAR" "2025-03")) = 8%Q.
Proof. split; vm_compute; reflexivity. Qed.

(** No matching row: the idle answer. *)
Lemma dominant_phase_idle (df_alloc : list alloc_row) (project ym : string) :
  select_month df_alloc project ym = [] ->
  month_mm_and_phase df_alloc project ym = Ok (0%Q, None)
  /\ month_phase df_alloc project ym = None.
Proof.
  intros E. unfold month_mm_and_phase, month_phase. rewrite E. split; reflexivity.
Qed.

Lemma dominant_phase_idle_witness :
  month_mm_and_phase [] "BIORADAR" "2025-03" = Ok (0%Q, None)
  /\ month_phase [] "BIORADAR" "2025-03" = None.
Proof. apply (dominant_phase_idle [] "BIORADAR" "2025-03"). reflexivity. Defined.

(** C1, at the input where the code departs from it. A project-month whose
    only matching row has an empty phase cell: the row matches, so the query
    goes past its emptiness guard, [groupby] drops the row, and reading the
    first group raises [IndexError] instead of returning a phase and an
    effort. The sibling query [month_phase] answers on the same input. *)
Lemma month_mm_and_phase_raises_on_missing_phase :
  let df := [mk_alloc "BIORADAR" "2025-03" None 3 None] in
  select_month df "BIORADAR" "2025-03" = df
  /\ month_mm_and_phase df "BIORADAR" "2025-03" = Raise IndexError
  /\ month_phase df "BIORADAR" "2025-03" = Some "nan".
Proof. repeat split. Qed.

(** [month_phase] looks at single rows, not at groups: two Design rows of 3.0
    outweigh one Testing row of 5.0 for [month_mm_and_phase], while
    [month_phase] names Testing. *)
Lemma month_phase_is_not_grouped :
  let df := [mk_alloc "BIORADAR" "2025-03" (Some "Design") 3 None;
             mk_alloc "BIORADAR" "2025-03" (Some "Design") 3 None;
             mk_alloc "BIORADAR" "2025-03" (Some "Testing") 5 None] in
  month_mm_and_phase df "BIORADAR" "2025-03" = Ok (6%Q, Some "Design")
  /\ month_phase df "BIORADAR" "2025-03" = Some "Testing".
Proof. split; vm_compute; reflexivity. Qed.

(* ===================================================================== *)
(** * Employee annotations: properties *)
(* ===================================================================== *)

Section AnnotationFacts.



(** The inner loop is the fold of the dictionary update over the parsed
    pairs. *)
Lemma process_parts_pairs (project date : string) (emp_parts : list string)
      (d : emp_dict) :
  process_parts project date emp_parts d
  = fold_left (fun d nm => add_allocation (fst nm, date) project (snd nm) d)
              (parsed_pairs emp_parts) d.
Proof.
  revert d. induction emp_parts as [|p rest IH]; intros d; simpl; [reflexivity|].
  destruct (parse_part p); simpl; [apply IH|apply IH|reflexivity].
Qed.







End AnnotationFacts.


(** C2, at an input where the code departs from it. The annotation
    "Alice (x), Bob (1.5)" has two segments. "Bob (1.5)" is well formed, and
    on its own, or placed first, it is parsed and gives Bob his 1.5 MM. Here
    it follows a segment whose number does not parse: the [try] that
    encloses the whole loop over the segments ends that loop, so the record
    contributes no pair and the dictionary of loads has no entry for Bob,
    while the second scan of the annotations, which builds the rows of the
    grid, still lists him. So a bad segment is not skipped: it aborts the
    segments that follow it, and it is not true that every well-formed
    segment yields its pair. *)
Lemma bad_number_drops_later_segments :
  let text := "Alice (x), Bob (1.5)" in
  let row := mk_alloc "BIORADAR" "2025-01" (Some "Design") 3 (Some text) in
  let swapped := mk_alloc "BIORADAR" "2025-01" (Some "Design") 3
                          (Some "Bob (1.5), Alice (x)") in
  segments text = ["Alice (x)"; "Bob (1.5)"]
  /\ parse_part "Alice (x)" = Raised
  /\ parse_part "Bob (1.5)" = Parsed "Bob" (Fin (3 # 2))
  /\ parse_employee_annotation text = []
  /\ employee_allocations [row] = []
  /\ all_employees [row] = ["Alice"; "Bob"]
  /\ employee_allocations [swapped]
     = [(("Bob", "2025-01"), mk_load (Fin (3 # 2)) [("BIORADAR", Fin (3 # 2))])]
  /\ ~ (forall text part name mm,
           In part (segments text) -> parse_part part = Parsed name mm ->
           In (name, mm) (parse_employee_annotation text)).
Proof.
  cbv zeta. do 7 (split; [vm_compute; reflexivity|]).
  intros H.
  specialize (H "Alice (x), Bob (1.5)" "Bob (1.5)" "Bob" (Fin (3 # 2))).
  assert (E : parse_employee_annotation "Alice (x), Bob (1.5)" = [])
    by (vm_compute; reflexivity).
  rewrite E in H. apply H.
  - vm_compute. right. left. reflexivity.
  - vm_compute. reflexivity.
Qed.

(* ===================================================================== *)
(** * The per-(employee, month) totals: invariant *)
(* ===================================================================== *)

Section LoadInvariant.

Lemma fsum_snoc (l : list pyfloat) (x : pyfloat) :
  fsum (l ++ [x]) = fadd (fsum l) x.
Proof. unfold fsum. rewrite fold_left_app. reflexivity. Qed.

Lemma dict_get_consistent (k : emp_key) (d : emp_dict) (e : load) :
  dict_consistent d -> dict_get k d = Some e -> load_consistent e.
Proof.
  induction d as [|[k' v] t IH]; simpl; [discriminate|].
  intros Hd. inversion Hd as [|x l Hv Ht]; subst.
  destruct (key_eqb k k'); [intros [= <-]; exact Hv|apply IH, Ht].
Qed.

Lemma dict_set_consistent (k : emp_key) (v : load) (d : emp_dict) :
  dict_consistent d -> load_consistent v -> dict_consistent (dict_set k v d).
Proof.
  intros Hd Hv. induction d as [|[k' v'] t IH]; simpl.
  - constructor; [exact Hv|constructor].
  - inversion Hd as [|x l Hv' Ht]; subst.
    destruct (key_eqb k k'); constructor;
      [exact Hv|exact Ht|exact Hv'|apply IH, Ht].
Qed.

Lemma add_allocation_consistent (key : emp_key) (project : string) (mm : pyfloat)
      (d : emp_dict) :
  dict_consistent d -> dict_consistent (add_allocation key project mm d).
Proof.
  intros Hd. unfold add_allocation. apply dict_set_consistent; [exact Hd|].
  assert (Hc : load_consistent match dict_get key d with
                               | Some e => e
                               | None => mk_load (Fin 0) []
                               end).
  { destruct (dict_get key d) as [e|] eqn:E.
    - apply (dict_get_consistent key d e Hd E).
    - reflexivity. }
  unfold load_consistent in *. simpl.
  rewrite map_app. simpl. rewrite fsum_snoc, Hc. reflexivity.
Qed.

Lemma process_parts_consistent (project date : string) (emp_parts : list string)
      (d : emp_dict) :
  dict_consistent d -> dict_consistent (process_parts project date emp_parts d).
Proof.
  revert d. induction emp_parts as [|p rest IH]; intros d Hd; simpl; [exact Hd|].
  destruct (parse_part p); [apply IH, Hd| |exact Hd].
  apply IH, add_allocation_consistent, Hd.
Qed.

Lemma process_row_consistent (d : emp_dict) (row : alloc_row) :
  dict_consistent d -> dict_consistent (process_row d row).
Proof.
  intros Hd. unfold process_row.
  destruct (Employees row) as [text|]; [|exact Hd].
  destruct (is_empty text); [exact Hd|apply process_parts_consistent, Hd].
Qed.

Lemma fold_process_row_consistent (rows : list alloc_row) (d : emp_dict) :
  dict_consistent d -> dict_consistent (fold_left process_row rows d).
Proof.
  revert d. induction rows as [|r rows IH]; intros d Hd; simpl; [exact Hd|].
  apply IH, process_row_consistent, Hd.
Qed.

End LoadInvariant.

(** C10. In the dictionary built from any prefix of the records, and so from
    all of them, every entry's running total is the sum, taken in list order
    from 0, of the efforts in its project list; when those efforts are all
    finite the total is the finite float of their exact sum. *)
Theorem totals_match_project_lists (alloc : list alloc_row) (n : nat) :
  Forall (fun item => total_mm (snd item) = fsum (map snd (projects (snd item))))
         (employee_allocations (firstn n alloc))
  /\ Forall (fun item => total_mm (snd item) = fsum (map snd (projects (snd item))))
            (employee_allocations alloc)
  /\ Forall (fun item =>
               forall qs, map snd (projects (snd item)) = map Fin qs ->
                          feq (total_mm (snd item)) (Fin (Qsum qs)) = true)
            (employee_allocations (firstn n alloc)).
Proof.
  assert (C : forall rows, dict_consistent (employee_allocations rows))
    by (intros rows; apply fold_process_row_consistent; constructor).
  split; [apply C|]. split; [apply C|].
  eapply Forall_impl; [|apply (C (firstn n alloc))].
  intros item H qs E. unfold load_consistent in H. rewrite H, E.
  destruct (fsum_finite qs) as [q [-> Hq]]. simpl. apply Qeq_bool_iff, Hq.
Qed.

(* ===================================================================== *)
(** * Conflict detection and utilisation bands: properties *)
(* ===================================================================== *)

Section ConflictFacts.

Lemma conflicts_loop (d : emp_dict) (acc : list conflict) :
  fold_left
    (fun acc item =>
       let '((emp, date), data) := item in
       if fgt (total_mm data) full_time
       then (acc ++ [mk_conflict emp date (total_mm data)
                                 (percent_of_full_time (total_mm data))
                                 (projects data)])%list
       else acc)
    d acc
  = (acc ++ map conflict_of (filter overloaded d))%list.
Proof.
  revert acc. induction d as [|[[emp date] data] t IH]; intros acc.
  - simpl. rewrite app_nil_r. reflexivity.
  - cbn [fold_left filter].
    change (overloaded (emp, date, data)) with (fgt (total_mm data) full_time).
    destruct (fgt (total_mm data) full_time); rewrite IH; [|reflexivity].
    cbn [map]. rewrite <- app_assoc. reflexivity.
Qed.

Lemma conflicts_as_filter (d : emp_dict) :
  conflicts d = map conflict_of (filter overloaded d).
Proof. unfold conflicts. rewrite conflicts_loop. reflexivity. Qed.

Lemma fgt_full_time (q : Q) : fgt (Fin q) full_time = true <-> (4 < q)%Q.
Proof.
  unfold fgt, flt, full_time. rewrite negb_true_iff, <- not_true_iff_false, Qle_bool_iff.
  split; [apply Qnot_le_lt|apply Qlt_not_le].
Qed.

Lemma percent_of_full_time_value (q : Q) :
  feq (percent_of_full_time (Fin q)) (Fin (q / 4 * 100)) = true.
Proof.
  unfold percent_of_full_time, full_time, fdiv, fmul, feq. simpl Qzero_b. cbv iota.
  apply Qeq_bool_iff. rewrite !Qred_correct. reflexivity.
Qed.

End ConflictFacts.

(** C3. The conflict list holds, in the order of the mapping, one conflict
    for each entry whose total is strictly above 4.0 and nothing else; each
    conflict carries the entry's employee, month, total, project list and the
    percentage total / 4.0 * 100. A total of exactly 4.0 gives no conflict;
    4.01 gives one, at 100.25 percent. *)
Theorem conflicts_are_the_overloaded_entries (loads : emp_dict) :
  conflicts loads = map conflict_of (filter overloaded loads)
  /\ (forall c, In c (conflicts loads) <->
                exists emp date data,
                  In ((emp, date), data) loads
                  /\ fgt (total_mm data) (Fin 4) = true
                  /\ c = mk_conflict emp date (total_mm data)
                                     (percent_of_full_time (total_mm data))
                                     (projects data))
  /\ (forall q, fgt (Fin q) (Fin 4) = true <-> (4 < q)%Q)
  /\ (forall q, feq (percent_of_full_time (Fin q)) (Fin (q / 4 * 100)) = true)
  /\ (forall emp date projs,
         conflicts [((emp, date), mk_load (Fin 4) projs)] = [])
  /\ (forall emp date projs,
         exists pct,
           conflicts [((emp, date), mk_load (Fin 4.01) projs)]
           = [mk_conflict emp date (Fin 4.01) pct projs]
           /\ feq pct (Fin 100.25) = true).
Proof.
  split; [apply conflicts_as_filter|]. split.
  { intros c. rewrite conflicts_as_filter, in_map_iff. split.
    - intros [[[emp date] data] [E H]]. apply filter_In in H. destruct H as [H O].
      exists emp, date, data. split; [exact H|]. split; [exact O|].
      symmetry. exact E.
    - intros [emp [date [data [H [O E]]]]]. exists ((emp, date), data).
      split; [symmetry; exact E|]. apply filter_In. split; [exact H|exact O]. }
  split; [apply fgt_full_time|]. split; [apply percent_of_full_time_value|].
  split; [intros emp date projs; reflexivity|].
  intros emp date projs. eexists. split; [reflexivity|]. vm_compute. reflexivity.
Qed.

Section BandFacts.

Lemma Qeq_bool_false (a b : Q) : Qeq_bool a b = false -> ~ (a == b)%Q.
Proof. intros H E. apply Qeq_bool_iff in E. congruence. Qed.

Lemma Qle_bool_false (a b : Q) : Qle_bool a b = false -> (b < a)%Q.
Proof.
  intros H. apply Qnot_le_lt. intros E. apply Qle_bool_iff in E. congruence.
Qed.

End BandFacts.

(** Turns every rational comparison of the context and of the goal into a
    proposition and lets linear arithmetic finish. *)
Ltac band_arith :=
  repeat match goal with
         | H : negb _ = true |- _ => apply negb_true_iff in H
         | H : negb _ = false |- _ => apply negb_false_iff in H
         | H : Qeq_bool _ _ = true |- _ => apply Qeq_bool_iff in H
         | H : Qeq_bool _ _ = false |- _ => apply Qeq_bool_false in H
         | H : Qle_bool _ _ = true |- _ => apply Qle_bool_iff in H
         | H : Qle_bool _ _ = false |- _ => apply Qle_bool_false in H
         end;
  try discriminate; try reflexivity; try (exfalso; lra).

(** The class of a utilisation cell, case by case. *)
Lemma cell_class_cases (p : pyfloat) :
  (feq p (Fin 0) = true -> cell_class p = "")
  /\ (flt (Fin 0) p = true -> flt p (Fin 50) = true -> cell_class p = "low")
  /\ (fle (Fin 50) p = true -> flt p (Fin 75) = true -> cell_class p = "medium")
  /\ (fle (Fin 75) p = true -> fle p (Fin 100) = true -> cell_class p = "high")
  /\ (fgt p (Fin 100) = true -> cell_class p = "over")
  /\ (fle (Fin 0) p = true ->
      feq p (Fin 0) = true
      \/ (flt (Fin 0) p = true /\ flt p (Fin 50) = true)
      \/ (fle (Fin 50) p = true /\ flt p (Fin 75) = true)
      \/ (fle (Fin 75) p = true /\ fle p (Fin 100) = true)
      \/ fgt p (Fin 100) = true)
  /\ cell_class (Fin 50) = "medium"
  /\ cell_class (Fin 75) = "high"
  /\ cell_class (Fin 100) = "high"
  /\ cell_class (Fin 100.01) = "over".
Proof.
  destruct p as [q|[|]|]; unfold cell_class, fgt, feq, flt, fle.
  - repeat split; try (vm_compute; reflexivity).
    + intros H. rewrite H. reflexivity.
    + intros H1 H2.
      destruct (Qeq_bool q 0) eqn:E0; [band_arith|]. rewrite H2. reflexivity.
    + intros H1 H2.
      destruct (Qeq_bool q 0) eqn:E0; [band_arith|].
      destruct (negb (Qle_bool 50 q)) eqn:E1; [band_arith|]. rewrite H2. reflexivity.
    + intros H1 H2.
      destruct (Qeq_bool q 0) eqn:E0; [band_arith|].
      destruct (negb (Qle_bool 50 q)) eqn:E1; [band_arith|].
      destruct (negb (Qle_bool 75 q)) eqn:E2; [band_arith|]. rewrite H2. reflexivity.
    + intros H1.
      destruct (Qeq_bool q 0) eqn:E0; [band_arith|].
      destruct (negb (Qle_bool 50 q)) eqn:E1; [band_arith|].
      destruct (negb (Qle_bool 75 q)) eqn:E2; [band_arith|].
      destruct (Qle_bool q 100) eqn:E3; [band_arith|]. reflexivity.
    + intros H0.
      destruct (Qeq_bool q 0) eqn:E0; [left; reflexivity|right].
      destruct (Qle_bool 50 q) eqn:E1; [right|left].
      * destruct (Qle_bool 75 q) eqn:E2; [right|left; split; reflexivity].
        destruct (Qle_bool q 100) eqn:E3; [left; split; reflexivity|right; reflexivity].
      * split; [|reflexivity]. apply negb_true_iff.
        destruct (Qle_bool q 0) eqn:E4; [band_arith|reflexivity].
  - repeat split; try (vm_compute; reflexivity); try discriminate.
  - repeat split; try (vm_compute; reflexivity); try discriminate.
    intros _. right. right. right. right. reflexivity.
  - repeat split; try (vm_compute; reflexivity); try discriminate.
Qed.

(** C4. The band of a utilisation percentage: "none" (the empty cell class)
    when the percentage equals 0, "low" strictly between 0 and 50, "medium"
    from 50 up to but not including 75, "high" from 75 to 100 inclusive,
    "over" strictly above 100; outside "none" the band is the cell class
    itself. A percentage that is not negative falls in one of these five
    cases. In particular 50 is medium, 75 is high, 100 is high and 100.01 is
    over. *)
Theorem cell_class_bands (p : pyfloat) :
  (feq p (Fin 0) = true -> cell_class p = "" /\ band p = "none")
  /\ (flt (Fin 0) p = true -> flt p (Fin 50) = true ->
      cell_class p = "low" /\ band p = "low")
  /\ (fle (Fin 50) p = true -> flt p (Fin 75) = true ->
      cell_class p = "medium" /\ band p = "medium")
  /\ (fle (Fin 75) p = true -> fle p (Fin 100) = true ->
      cell_class p = "high" /\ band p = "high")
  /\ (fgt p (Fin 100) = true -> cell_class p = "over" /\ band p = "over")
  /\ (fle (Fin 0) p = true ->
      feq p (Fin 0) = true
      \/ (flt (Fin 0) p = true /\ flt p (Fin 50) = true)
      \/ (fle (Fin 50) p = true /\ flt p (Fin 75) = true)
      \/ (fle (Fin 75) p = true /\ fle p (Fin 100) = true)
      \/ fgt p (Fin 100) = true)
  /\ band (Fin 50) = "medium"
  /\ band (Fin 75) = "high"
  /\ band (Fin 100) = "high"
  /\ band (Fin 100.01) = "over".
Proof.
  destruct (cell_class_cases p) as (C0 & C1 & C2 & C3 & C4 & Cov & _).
  assert (B : forall c, cell_class p = c -> cell_class p = c /\ band p = if is_empty c then "none" else c)
    by (intros c E; unfold band; rewrite E; split; reflexivity).
  split; [intros H; apply (B ""), C0, H|].
  split; [intros H1 H2; apply (B "low"), C1; assumption|].
  split; [intros H1 H2; apply (B "medium"), C2; assumption|].
  split; [intros H1 H2; apply (B "high"), C3; assumption|].
  split; [intros H; apply (B "over"), C4, H|].
  split; [exact Cov|].
  repeat split; vm_compute; reflexivity.
Qed.

(* ===================================================================== *)
(** * Capacity planning: properties *)
(* ===================================================================== *)

Section CapacityFacts.

Lemma month_total_demand (alloc : list alloc_row) (month : string) :
  (month_total alloc month == monthly_demand alloc month)%Q.
Proof.
  unfold month_total. induction alloc as [|r rest IH]; simpl; [reflexivity|].
  destruct (String.eqb (Date r) month); simpl.
  - rewrite Qsum_cons, IH. reflexivity.
  - rewrite IH. ring.
Qed.

(** Only the date and the effort of a record enter the total. *)
Lemma month_total_by_columns (a : list alloc_row) (month : string) :
  month_total a month
  = Qsum (map snd (filter (fun c => String.eqb (fst c) month)
                          (map (fun r => (Date r, MM r)) a))).
Proof.
  unfold month_total. f_equal.
  induction a as [|r a IH]; simpl; [reflexivity|].
  destruct (String.eqb (Date r) month); simpl; rewrite IH; reflexivity.
Qed.

Lemma month_total_columns (a b : list alloc_row) (month : string) :
  map (fun r => (Date r, MM r)) a = map (fun r => (Date r, MM r)) b ->
  month_total a month = month_total b month.
Proof. intros E. rewrite !month_total_by_columns, E. reflexivity. Qed.

End CapacityFacts.

(** C5. The monthly total of the capacity table is the sum of the efforts of
    all records of that month: every record adds its effort when its date is
    the month and nothing otherwise, whatever its project and phase (two
    record sets with the same dates and efforts give the same total). The
    department selector narrows [meta_view] only, so the total and the whole
    capacity table are the same under every selection. *)
Theorem monthly_demand_ignores_department
        (st : session) (month : string) (all_months : list string) (d : string) :
  (month_total (alloc st) month == monthly_demand (alloc st) month)%Q
  /\ (forall other, map (fun r => (Date r, MM r)) other
                    = map (fun r => (Date r, MM r)) (alloc st) ->
                    month_total other month = month_total (alloc st) month)
  /\ month_total (alloc (mk_session (alloc st) (meta st) d)) month
     = month_total (alloc st) month
  /\ capacity_data (mk_session (alloc st) (meta st) d) all_months
     = capacity_data st all_months
  /\ (forall c, In c (capacity_data (mk_session (alloc st) (meta st) d) all_months) ->
                (capacity_total_mm c == monthly_demand (alloc st) (capacity_month c))%Q).
Proof.
  split; [apply month_total_demand|]. split; [intros other E; apply month_total_columns, E|].
  split; [reflexivity|]. split; [reflexivity|].
  intros c Hc. unfold capacity_data in Hc. apply in_map_iff in Hc.
  destruct Hc as [m [<- _]]. simpl. apply month_total_demand.
Qed.

(** The selector does change the project list that the other views use. *)
Example department_filter_narrows_meta_view :
  let meta := [mk_meta "BIORADAR" "SCI & ENG" 60; mk_meta "ENERGIZE" "DIGITAL" 40] in
  let alloc := [mk_alloc "BIORADAR" "2025-01" (Some "Design") 2 None;
                mk_alloc "ENERGIZE" "2025-01" (Some "Testing") 8 None] in
  meta_view (mk_session alloc meta "DIGITAL") = [mk_meta "ENERGIZE" "DIGITAL" 40]
  /\ List.length (active (mk_session alloc meta "DIGITAL") "2025-01") = 1%nat
  /\ List.length (active (mk_session alloc meta "All") "2025-01") = 2%nat
  /\ month_total alloc "2025-01" = 10%Q.
Proof. repeat split. Qed.

(* ===================================================================== *)
(** * Further properties *)
(* ===================================================================== *)

(** A valid token has the shape YYYY-MM: four digits, a dash, two digits. *)
Lemma valid_token_shape (t : Calendar.ym) :
  Calendar.valid t ->
  exists yyyy mm,
    Calendar.token t = yyyy ++ "-" ++ mm
    /\ String.length yyyy = 4%nat /\ String.length mm = 2%nat
    /\ digits_value yyyy 0 = Some (fst t) /\ digits_value mm 0 = Some (snd t).
Proof.
  intros [Hy Hm]. destruct t as [y m]. simpl in Hy, Hm.
  exists (format_0d 4 y), (format_0d 2 m). split; [reflexivity|].
  assert (H4 : forallb (fun y => (String.length (format_0d 4 y) =? 4)%nat
                                 && match digits_value (format_0d 4 y) 0 with
                                    | Some v => v =? y
                                    | None => false
                                    end) (range 10000) = true)
    by (vm_compute; reflexivity).
  assert (H2 : forallb (fun m => (String.length (format_0d 2 m) =? 2)%nat
                                 && match digits_value (format_0d 2 m) 0 with
                                    | Some v => v =? m
                                    | None => false
                                    end) (range 100) = true)
    by (vm_compute; reflexivity).
  pose proof (range_forallb _ _ H4 y ltac:(lia)) as Cy.
  pose proof (range_forallb _ _ H2 m ltac:(lia)) as Cm.
  cbv beta in Cy, Cm. simpl fst. simpl snd.
  apply andb_true_iff in Cy. destruct Cy as [Ly Vy].
  apply andb_true_iff in Cm. destruct Cm as [Lm Vm].
  apply Nat.eqb_eq in Ly. apply Nat.eqb_eq in Lm.
  destruct (digits_value (format_0d 4 y) 0) as [vy|]; [|discriminate].
  destruct (digits_value (format_0d 2 m) 0) as [vm|]; [|discriminate].
  apply Z.eqb_eq in Vy. apply Z.eqb_eq in Vm. subst. auto.
Qed.

Lemma valid_token_shape_witness :
  exists yyyy mm,
    Calendar.token (2025, 11) = yyyy ++ "-" ++ mm
    /\ String.length yyyy = 4%nat /\ String.length mm = 2%nat
    /\ digits_value yyyy 0 = Some (fst (2025, 11))
    /\ digits_value mm 0 = Some (snd (2025, 11)).
Proof.
  apply (valid_token_shape (2025, 11)). unfold Calendar.valid; simpl; lia.
Defined.

(** Shifting a valid token forward and then back gives the token again, as
    long as the year stays within four digits. *)
Lemma shift_forward_then_backward (y m : Z) :
  0 <= y <= 9999 -> 1 <= m <= 12 -> y < 9999 \/ m < 12 ->
  exists t, shift_forward (format_ym y m) = Some t
            /\ shift_backward t = Some (format_ym y m).
Proof.
  intros Hy Hm Hlim. unfold shift_forward at 1.
  rewrite (parse_format_ym y m Hy Hm). cbv zeta.
  destruct (Z.gtb_spec (m + 1) 12) as [G|G]; eexists; (split; [reflexivity|]);
    unfold shift_backward.
  - rewrite parse_format_ym by lia. cbv zeta. simpl (1 - 1 <? 1).
    cbv iota. replace (y + 1 - 1) with y by lia. replace m with 12 by lia.
    reflexivity.
  - rewrite parse_format_ym by lia. cbv zeta.
    destruct (Z.ltb_spec (m + 1 - 1) 1); [lia|].
    replace (m + 1 - 1) with m by lia. reflexivity.
Qed.

Lemma shift_forward_then_backward_witness :
  exists t, shift_forward (format_ym 2025 12) = Some t
            /\ shift_backward t = Some (format_ym 2025 12).
Proof. apply (shift_forward_then_backward 2025 12); lia. Defined.

Section DictKeys.

Lemma key_eqb_eq (a b : emp_key) : key_eqb a b = true <-> a = b.
Proof.
  destruct a as [a1 a2], b as [b1 b2]. unfold key_eqb. simpl.
  rewrite andb_true_iff, !String.eqb_eq. split; [intros [-> ->]|intros [= -> ->]]; auto.
Qed.

Lemma key_dec (a b : emp_key) : {a = b} + {a <> b}.
Proof. decide equality; apply string_dec. Qed.

Lemma dict_set_keys_present (k : emp_key) (v : load) (d : emp_dict) :
  In k (map fst d) -> map fst (dict_set k v d) = map fst d.
Proof.
  induction d as [|[k' v'] t IH]; simpl; [intros []|].
  destruct (key_eqb k k') eqn:E; [reflexivity|].
  intros [->|H]; [|simpl; rewrite (IH H); reflexivity].
  assert (T : key_eqb k k = true) by (apply key_eqb_eq; reflexivity). congruence.
Qed.

Lemma dict_set_keys_absent (k : emp_key) (v : load) (d : emp_dict) :
  ~ In k (map fst d) -> map fst (dict_set k v d) = (map fst d ++ [k])%list.
Proof.
  induction d as [|[k' v'] t IH]; simpl; [reflexivity|].
  intros H. destruct (key_eqb k k') eqn:E.
  - apply key_eqb_eq in E. subst k'. exfalso. apply H. left. reflexivity.
  - simpl. rewrite IH; [reflexivity|]. intros C. apply H. right. exact C.
Qed.

Lemma NoDup_snoc (l : list emp_key) (k : emp_key) :
  NoDup l -> ~ In k l -> NoDup (l ++ [k]).
Proof.
  induction l as [|h t IH]; simpl; intros Hl Hk.
  - constructor; [intros []|constructor].
  - inversion Hl as [|x xs Hh Ht]; subst. constructor.
    + rewrite in_app_iff. intros [C|[C|[]]]; [exact (Hh C)|].
      apply Hk. left. symmetry. exact C.
    + apply IH; [exact Ht|]. intros C. apply Hk. right. exact C.
Qed.

Lemma add_allocation_keys (key : emp_key) (project : string) (mm : pyfloat)
      (d : emp_dict) :
  NoDup (map fst d) -> NoDup (map fst (add_allocation key project mm d)).
Proof.
  intros Hd. unfold add_allocation.
  destruct (in_dec key_dec key (map fst d)) as [Hin|Hout].
  - rewrite dict_set_keys_present by exact Hin. exact Hd.
  - rewrite dict_set_keys_absent by exact Hout. apply NoDup_snoc; assumption.
Qed.

Lemma process_parts_keys (project date : string) (emp_parts : list string)
      (d : emp_dict) :
  NoDup (map fst d) -> NoDup (map fst (process_parts project date emp_parts d)).
Proof.
  revert d. induction emp_parts as [|p rest IH]; intros d Hd; simpl; [exact Hd|].
  destruct (parse_part p); [apply IH, Hd| |exact Hd].
  apply IH, add_allocation_keys, Hd.
Qed.

Lemma fold_process_row_keys (rows : list alloc_row) (d : emp_dict) :
  NoDup (map fst d) -> NoDup (map fst (fold_left process_row rows d)).
Proof.
  revert d. induction rows as [|r rows IH]; intros d Hd; simpl; [exact Hd|].
  apply IH. unfold process_row.
  destruct (Employees r) as [text|]; [|exact Hd].
  destruct (is_empty text); [exact Hd|apply process_parts_keys, Hd].
Qed.

End DictKeys.

(** The dictionary of loads holds each (employee, month) key once, and the
    conflict list holds at most one conflict per key. *)
Lemma employee_allocations_keys_unique (alloc : list alloc_row) :
  NoDup (map fst (employee_allocations alloc))
  /\ NoDup (map (fun c => (employee c, month c))
                (conflicts (employee_allocations alloc))).
Proof.
  assert (K : NoDup (map fst (employee_allocations alloc)))
    by (apply fold_process_row_keys; constructor).
  split; [exact K|].
  rewrite conflicts_as_filter, map_map.
  change (fun x => (employee (conflict_of x), month (conflict_of x)))
    with (fun x : emp_key * load => (fst (fst x), snd (fst x))).
  revert K. generalize (employee_allocations alloc). intros d.
  induction d as [|[[e m] v] t IH]; intros K; [constructor|].
  cbn [map fst filter] in *.
  inversion K as [|x xs Hh Ht]; subst.
  destruct (overloaded _); [|apply IH, Ht].
  cbn [map fst snd]. constructor; [|apply IH, Ht].
  intros C. apply Hh. apply in_map_iff in C. destruct C as [[[e' m'] v'] [E H]].
  simpl in E. injection E as -> ->. apply filter_In in H. destruct H as [H _].
  apply in_map_iff. exists ((e, m), v'). split; [reflexivity|exact H].
Qed.

(** An employee with no entry for a month shows 0 percent and the empty
    class in the utilisation grid. *)
Lemma idle_cell_has_no_class (d : emp_dict) (employee month : string) :
  dict_get (employee, month) d = None ->
  month_pct d employee month = percent_of_full_time (Fin 0)
  /\ cell_class (month_pct d employee month) = "".
Proof.
  intros H.
  assert (E : month_pct d employee month = percent_of_full_time (Fin 0)).
  { unfold month_pct. f_equal. generalize (Fin 0) as acc.
    induction d as [|[[e m] v] t IH]; intros acc; [reflexivity|].
    simpl in H. unfold key_eqb in H. simpl in H.
    rewrite (String.eqb_sym employee e), (String.eqb_sym month m) in H.
    cbn [fold_left fst snd].
    destruct (String.eqb e employee && String.eqb m month); [discriminate|].
    apply IH, H. }
  split; [exact E|]. rewrite E. reflexivity.
Qed.

Lemma idle_cell_has_no_class_witness :
  month_pct [] "Alex Morgan" "2025-01" = percent_of_full_time (Fin 0)
  /\ cell_class (month_pct [] "Alex Morgan" "2025-01") = "".
Proof. apply (idle_cell_has_no_class [] "Alex Morgan" "2025-01"). reflexivity. Defined.

(* ===================================================================== *)
(** * The phase queries: outcomes, agreement and bounds *)
(* ===================================================================== *)

Section QueryFacts.



Lemma sort_values_desc_nil {A : Type} (v : A -> Q) (l : list A) :
  sort_values_desc v l = [] <-> l = [].
Proof.
  split; [|intros ->; reflexivity].
  destruct l as [|a l]; [reflexivity|]. intros E. exfalso.
  assert (H : In a (sort_values_desc v (a :: l)))
    by (apply sort_values_desc_In; left; reflexivity).
  rewrite E in H. destruct H.
Qed.

Lemma group_keys_nil (rows : list alloc_row) :
  group_keys rows = [] <-> forall r, In r rows -> Phase r = None.
Proof.
  split.
  - intros E r Hr. destruct (Phase r) as [p|] eqn:P; [|reflexivity]. exfalso.
    assert (H : In p (group_keys rows)) by (apply group_keys_In; eauto).
    rewrite E in H. destruct H.
  - intros H. destruct (group_keys rows) as [|k ks] eqn:E; [reflexivity|]. exfalso.
    assert (Hk : In k (group_keys rows)) by (rewrite E; left; reflexivity).
    apply group_keys_In in Hk. destruct Hk as [r [Hr P]].
    rewrite (H r Hr) in P. discriminate.
Qed.

Lemma Qsum_nonneg (l : list Q) :
  (forall x, In x l -> (0 <= x)%Q) -> (0 <= Qsum l)%Q.
Proof.
  induction l as [|x l IH]; intros H; [unfold Qsum; simpl; apply Qle_refl|].
  rewrite Qsum_cons.
  assert (0 <= x)%Q by (apply H; left; reflexivity).
  assert (0 <= Qsum l)%Q by (apply IH; intros y Hy; apply H; right; exact Hy).
  lra.
Qed.

Lemma Qsum_filter_le (f : alloc_row -> bool) (rows : list alloc_row) :
  (forall r, In r rows -> (0 <= MM r)%Q) ->
  (Qsum (map MM (filter f rows)) <= Qsum (map MM rows))%Q.
Proof.
  induction rows as [|r rows IH]; intros H; [apply Qle_refl|].
  assert (0 <= MM r)%Q by (apply H; left; reflexivity).
  assert (Qsum (map MM (filter f rows)) <= Qsum (map MM rows))%Q
    by (apply IH; intros y Hy; apply H; right; exact Hy).
  simpl. destruct (f r); simpl; rewrite ?Qsum_cons; lra.
Qed.

End QueryFacts.

(** The three outcomes of [month_mm_and_phase]: the idle answer exactly when
    no row matches; [IndexError] exactly when rows match and none of them
    carries a phase; a phase and an effort exactly when some matching row
    carries a phase. *)
Theorem month_mm_and_phase_outcomes (df_alloc : list alloc_row) (project ym : string) :
  let rows := select_month df_alloc project ym in
  ((exists mm, month_mm_and_phase df_alloc project ym = Ok (mm, None)) <-> rows = [])
  /\ (rows = [] -> month_mm_and_phase df_alloc project ym = Ok (0%Q, None))
  /\ (month_mm_and_phase df_alloc project ym = Raise IndexError
      <-> rows <> [] /\ forall r, In r rows -> Phase r = None)
  /\ ((exists mm phase, month_mm_and_phase df_alloc project ym = Ok (mm, Some phase))
      <-> exists r, In r rows /\ Phase r <> None).
Proof.
  cbv zeta. unfold month_mm_and_phase.
  set (rows := select_month df_alloc project ym).
  destruct rows as [|r0 rows'] eqn:E.
  - split; [split; [reflexivity|intros _; exists 0%Q; reflexivity]|].
    split; [reflexivity|]. split.
    + split; [discriminate|intros [H _]; congruence].
    + split; [intros [mm [ph H]]; discriminate|intros [r [[] _]]].
  - rewrite <- E.
    assert (Hne : rows <> []) by (rewrite E; discriminate).
    destruct (sort_values_desc snd (groupby_phase_sum rows)) as [|[phase mm] rest] eqn:Es.
    + apply sort_values_desc_nil in Es. unfold groupby_phase_sum in Es.
      apply map_eq_nil in Es. pose proof (proj1 (group_keys_nil rows) Es) as Hnone.
      split; [split; [intros [mm H]; discriminate|intros H; congruence]|].
      split; [intros H; congruence|]. split.
      * split; [intros _; split; assumption|reflexivity].
      * split; [intros [mm [ph H]]; discriminate|].
        intros [r [Hr P]]. exfalso. apply P, Hnone, Hr.
    + assert (Hin : In (phase, mm) (groupby_phase_sum rows))
        by (apply (sort_values_desc_In snd); rewrite Es; left; reflexivity).
      unfold groupby_phase_sum in Hin. apply in_map_iff in Hin.
      destruct Hin as [p [Ep Hp]]. injection Ep as -> _.
      apply group_keys_In in Hp. destruct Hp as [r [Hr P]].
      split; [split; [intros [m H]; discriminate|intros H; congruence]|].
      split; [intros H; congruence|]. split.
      * split; [discriminate|]. intros [_ H]. rewrite (H r Hr) in P. discriminate.
      * split; [intros _; exists r; split; [exact Hr|congruence]|].
        intros _. exists mm, phase. reflexivity.
Qed.




(** A winning phase none of whose rows is annotated gives the text "nan",
    which the timeline shows as it shows a name list. *)
Example timeline_query_without_annotation :
  month_mm_phase_employees
    [mk_alloc "BIORADAR" "2025-01" (Some "Design") 2 None;
     mk_alloc "BIORADAR" "2025-01" (Some "Testing") 1 (Some "Ann (1)")]
    "BIORADAR" "2025-01"
  = Ok (2%Q, Some "Design", "nan").
Proof. vm_compute. reflexivity. Qed.

(** [month_phase] answers [None] exactly when no row matches; otherwise it
    names the phase cell of one matching row whose own effort is the largest
    among the matching rows, whatever the sums per phase are. *)
Theorem month_phase_picks_largest_row (df_alloc : list alloc_row) (project ym : string) :
  let rows := select_month df_alloc project ym in
  (month_phase df_alloc project ym = None <-> rows = [])
  /\ (forall s, month_phase df_alloc project ym = Some s ->
        exists top, In top rows /\ s = str_cell (Phase top)
                    /\ forall r, In r rows -> (MM r <= MM top)%Q).
Proof.
  cbv zeta. unfold month_phase.
  destruct (sort_values_desc MM (select_month df_alloc project ym)) as [|top rest] eqn:Es.
  - apply sort_values_desc_nil in Es. rewrite Es.
    split; [split; reflexivity|discriminate].
  - destruct (sort_values_desc_head MM _ _ _ Es) as [Hin Hmax].
    split.
    + split; [discriminate|]. intros E. rewrite E in Hin. destruct Hin.
    + intros s [= <-]. exists top. split; [exact Hin|]. split; [reflexivity|exact Hmax].
Qed.

(** With efforts that are not negative, the effort reported for a
    project-month lies between 0 and the total effort of its matching rows. *)
Theorem dominant_effort_bounded
        (df_alloc : list alloc_row) (project ym : string) (mm : Q) (phase : option string) :
  (forall r, In r (select_month df_alloc project ym) -> (0 <= MM r)%Q) ->
  month_mm_and_phase df_alloc project ym = Ok (mm, phase) ->
  (0 <= mm)%Q /\ (mm <= Qsum (map MM (select_month df_alloc project ym)))%Q.
Proof.
  intros Hpos. unfold month_mm_and_phase.
  set (rows := select_month df_alloc project ym) in *.
  destruct rows as [|r0 rows'] eqn:E.
  - intros [= <- _]. split; apply Qle_refl.
  - rewrite <- E in *.
    destruct (sort_values_desc snd (groupby_phase_sum rows)) as [|[p v] rest] eqn:Es;
      [discriminate|].
    intros [= <- _].
    assert (Hin : In (p, v) (groupby_phase_sum rows))
      by (apply (sort_values_desc_In snd); rewrite Es; left; reflexivity).
    unfold groupby_phase_sum in Hin. apply in_map_iff in Hin.
    destruct Hin as [q [Eq _]]. injection Eq as -> <-. split.
    + apply Qsum_nonneg. intros x Hx. apply in_map_iff in Hx.
      destruct Hx as [r [<- Hr]]. apply filter_In in Hr. apply Hpos, Hr.
    + apply Qsum_filter_le, Hpos.
Qed.

Lemma dominant_effort_bounded_witness :
  let df := [mk_alloc "BIORADAR" "2025-03" (Some "Design") 3 None;
             mk_alloc "BIORADAR" "2025-03" (Some "Testing") 5 None] in
  (0 <= 5)%Q /\ (5 <= Qsum (map MM (select_month df "BIORADAR" "2025-03")))%Q.
Proof.
  cbv zeta.
  apply (dominant_effort_bounded _ "BIORADAR" "2025-03" 5%Q (Some "Testing")).
  - intros r [<-|[<-|[]]]; simpl; discriminate.
  - vm_compute. reflexivity.
Defined.

(* ===================================================================== *)
(** * Rendering helpers: properties *)
(* ===================================================================== *)

Section RenderFacts.

Lemma lower_idem (c : ascii) : lower (lower c) = lower c.
Proof.
  destruct c as [[|] [|] [|] [|] [|] [|] [|] [|]]; vm_compute; reflexivity.
Qed.

Lemma upper_idem (c : ascii) : upper_char (upper_char c) = upper_char c.
Proof.
  destruct c as [[|] [|] [|] [|] [|] [|] [|] [|]]; vm_compute; reflexivity.
Qed.

Lemma upper_lower (c : ascii) : upper_char (lower c) = upper_char c.
Proof.
  destruct c as [[|] [|] [|] [|] [|] [|] [|] [|]]; vm_compute; reflexivity.
Qed.

Lemma lower_upper (c : ascii) : lower (upper_char c) = lower c.
Proof.
  destruct c as [[|] [|] [|] [|] [|] [|] [|] [|]]; vm_compute; reflexivity.
Qed.

Lemma map_str_compose (f g h : ascii -> ascii) (s : string) :
  (forall c, f (g c) = h c) -> map_str f (map_str g s) = map_str h s.
Proof.
  intros H. induction s as [|c r IH]; simpl; [reflexivity|].
  rewrite H, IH. reflexivity.
Qed.

Lemma str_lower_empty (s : string) : is_empty (str_lower s) = is_empty s.
Proof. destruct s; reflexivity. Qed.

End RenderFacts.

(** The three phase renderers agree. [phase_badge] gives no badge exactly
    when the heat map shows the Idle cell. When there is a badge, the phase
    is one of the five names of [PHASES] up to letter case, and the badge,
    the heat-map cell and the timeline bar carry the same class, the first
    two with the same canonical name. *)
Theorem phase_renderers_agree (phase : string) :
  (phase_badge phase = "" <-> cell_html (Some phase) = cell_div "idle" "Idle")
  /\ (phase_badge phase <> "" ->
      exists cls txt,
        phase_badge phase = badge_html cls txt
        /\ cell_html (Some phase) = cell_div cls txt
        /\ bar_class phase = cls
        /\ In txt PHASES
        /\ str_lower txt = str_lower phase).
Proof.
  unfold phase_badge, cell_html, bar_class. cbv zeta.
  destruct (is_empty phase) eqn:Em.
  { destruct phase; [|discriminate]. simpl. split; [split; reflexivity|congruence]. }
  cbn [orb].
  destruct (String.eqb (str_lower phase) "idle") eqn:Ei.
  { apply String.eqb_eq in Ei. rewrite Ei. simpl.
    split; [split; reflexivity|congruence]. }
  destruct (String.eqb (str_lower phase) "planning") eqn:E1.
  { apply String.eqb_eq in E1. split; [split; discriminate|]. intros _.
    exists "plan", "Planning". rewrite E1. repeat split. simpl; auto. }
  destruct (String.eqb (str_lower phase) "design") eqn:E2.
  { apply String.eqb_eq in E2. split; [split; discriminate|]. intros _.
    exists "design", "Design". rewrite E2. repeat split. simpl; auto. }
  destruct (String.eqb (str_lower phase) "development") eqn:E3.
  { apply String.eqb_eq in E3. split; [split; discriminate|]. intros _.
    exists "dev", "Development". rewrite E3. repeat split. simpl; auto. }
  destruct (String.eqb (str_lower phase) "testing") eqn:E4.
  { apply String.eqb_eq in E4. split; [split; discriminate|]. intros _.
    exists "test", "Testing". rewrite E4. repeat split. simpl; auto. }
  destruct (String.eqb (str_lower phase) "delivery") eqn:E5.
  { apply String.eqb_eq in E5. split; [split; discriminate|]. intros _.
    exists "deliv", "Delivery". rewrite E5. repeat split. simpl; auto 6. }
  split; [split; reflexivity|congruence].
Qed.

(** A phase that is none of the five names is drawn in the colour of
    Planning by the timeline, while the heat map shows it as Idle. *)
Theorem unknown_phase_is_drawn_as_planning (phase : string) :
  ~ In (str_lower phase) (map str_lower PHASES) ->
  bar_class phase = "plan"
  /\ cell_html (Some phase) = cell_div "idle" "Idle"
  /\ phase_badge phase = "".
Proof.
  intros H. simpl in H.
  assert (N : forall k, In k ["planning"; "design"; "development"; "testing"; "delivery"] ->
                        String.eqb (str_lower phase) k = false).
  { intros k Hk. apply String.eqb_neq. intros E. apply H. rewrite E.
    simpl in Hk. tauto. }
  unfold bar_class, cell_html, phase_badge. cbv zeta.
  rewrite !N by (simpl; tauto).
  split; [reflexivity|]. split; [|reflexivity].
  destruct (is_empty phase || String.eqb (str_lower phase) "idle"); reflexivity.
Qed.

Lemma unknown_phase_is_drawn_as_planning_witness :
  bar_class "Review" = "plan"
  /\ cell_html (Some "Review") = cell_div "idle" "Idle"
  /\ phase_badge "Review" = "".
Proof.
  apply (unknown_phase_is_drawn_as_planning "Review").
  simpl. intros [H|[H|[H|[H|[H|[]]]]]]; discriminate.
Defined.

(** The heat-map cell of a project-month without any row, or whose largest
    row has an empty phase cell, is the Idle cell. *)
Theorem heat_map_idle_cell (df_alloc : list alloc_row) (project ym : string) :
  (select_month df_alloc project ym = [] ->
   cell_html (month_phase df_alloc project ym) = cell_div "idle" "Idle")
  /\ (forall top rest,
        sort_values_desc MM (select_month df_alloc project ym) = top :: rest ->
        Phase top = None ->
        cell_html (month_phase df_alloc project ym) = cell_div "idle" "Idle").
Proof.
  unfold month_phase. split.
  - intros ->. reflexivity.
  - intros top rest -> ->. reflexivity.
Qed.

(** The three renderers and [dept_badge] do not look at letter case. *)
Theorem renderers_ignore_case (s : string) :
  phase_badge (str_upper s) = phase_badge s
  /\ phase_badge (str_lower s) = phase_badge s
  /\ cell_html (Some (str_upper s)) = cell_html (Some s)
  /\ cell_html (Some (str_lower s)) = cell_html (Some s)
  /\ bar_class (str_upper s) = bar_class s
  /\ bar_class (str_lower s) = bar_class s
  /\ dept_badge (str_upper s) = dept_badge s
  /\ dept_badge (str_lower s) = dept_badge s.
Proof.
  assert (LU : str_lower (str_upper s) = str_lower s)
    by (apply map_str_compose, lower_upper).
  assert (LL : str_lower (str_lower s) = str_lower s)
    by (apply map_str_compose, lower_idem).
  assert (UU : str_upper (str_upper s) = str_upper s)
    by (apply map_str_compose, upper_idem).
  assert (UL : str_upper (str_lower s) = str_upper s)
    by (apply map_str_compose, upper_lower).
  assert (EU : is_empty (str_upper s) = is_empty s) by (destruct s; reflexivity).
  assert (EL : is_empty (str_lower s) = is_empty s) by (destruct s; reflexivity).
  unfold phase_badge, cell_html, bar_class, dept_badge. cbv zeta.
  rewrite LU, LL, UU, UL, EU, EL. repeat split.
Qed.

(** [dept_badge] always answers with one of its three badges; a label that
    neither starts with SCI nor holds DIGITAL, known or not, gets the PMO
    badge, and a label that starts with SCI gets the SCI & ENG badge even
    when it also holds DIGITAL. *)
Theorem dept_badge_cases (dept : string) :
  (dept_badge dept = badge_sci \/ dept_badge dept = badge_digital
   \/ dept_badge dept = badge_pmo)
  /\ (startswith "SCI" (str_upper dept) = true -> dept_badge dept = badge_sci)
  /\ (startswith "SCI" (str_upper dept) = false ->
      contains_str "DIGITAL" (str_upper dept) = false -> dept_badge dept = badge_pmo)
  /\ map dept_badge ["SCI & ENG"; "DIGITAL"; "PMO"; "Finance"; "Sci-Digital"]
     = [badge_sci; badge_digital; badge_pmo; badge_pmo; badge_sci].
Proof.
  unfold dept_badge.
  destruct (startswith "SCI" (str_upper dept)) eqn:S;
    destruct (contains_str "DIGITAL" (str_upper dept)) eqn:D;
    repeat split; auto; try discriminate.
Qed.

(* ===================================================================== *)
(** * Timeline bars: properties *)
(* ===================================================================== *)

Ltac q_bool :=
  repeat match goal with
         | H : negb _ = true |- _ => apply negb_true_iff in H
         | H : negb _ = false |- _ => apply negb_false_iff in H
         | H : Qle_bool _ _ = true |- _ => apply Qle_bool_iff in H
         | H : Qle_bool _ _ = false |- _ => apply Qle_bool_false in H
         end.

Lemma py_min_spec (a b : Q) :
  (py_min a b <= a)%Q /\ (py_min a b <= b)%Q /\ (py_min a b == a \/ py_min a b == b)%Q.
Proof.
  unfold py_min. destruct (negb (Qle_bool a b)) eqn:E; q_bool;
    (split; [lra|split; [lra|]]); [right|left]; reflexivity.
Qed.

Lemma py_max_spec (a b : Q) :
  (a <= py_max a b)%Q /\ (b <= py_max a b)%Q /\ (py_max a b == a \/ py_max a b == b)%Q.
Proof.
  unfold py_max. destruct (negb (Qle_bool b a)) eqn:E; q_bool;
    (split; [lra|split; [lra|]]); [right|left]; reflexivity.
Qed.

(** The height of a timeline bar, for a full height of at least 1 MM: always
    between 20 and 100 percent; 100 percent as soon as the effort reaches the
    full height; proportional to the effort in between, from one fifth of the
    full height on; never decreasing when the effort grows. *)
Theorem bar_height_bounds (mm mm' : Q) (full_height_mm : Z) :
  1 <= full_height_mm ->
  (20 <= bar_height mm full_height_mm <= 100)%Q
  /\ ((inject_Z full_height_mm <= mm)%Q -> (bar_height mm full_height_mm == 100)%Q)
  /\ ((inject_Z full_height_mm / 5 <= mm <= inject_Z full_height_mm)%Q ->
      (bar_height mm full_height_mm == mm / inject_Z full_height_mm * 100)%Q)
  /\ ((mm <= inject_Z full_height_mm / 5)%Q -> (bar_height mm full_height_mm == 20)%Q)
  /\ ((mm <= mm')%Q -> (bar_height mm full_height_mm <= bar_height mm' full_height_mm)%Q).
Proof.
  intros Hf.
  assert (Hpos : (0 < inject_Z full_height_mm)%Q).
  { rewrite <- (Zlt_Qlt 0). lia. }
  set (h := inject_Z full_height_mm) in *.
  assert (Hscale : forall x, (x / h * 100 == x * (100 / h))%Q)
    by (intros x; field; lra).
  assert (Hk : (0 < 100 / h)%Q) by (apply Qlt_shift_div_l; lra).
  assert (Hkh : (h * (100 / h) == 100)%Q) by (field; lra).
  unfold bar_height, bar_pct. fold h.
  set (k := (100 / h)%Q) in *.
  assert (Hx : (mm / h * 100 == mm * k)%Q) by apply Hscale.
  assert (Hx' : (mm' / h * 100 == mm' * k)%Q) by apply Hscale.
  set (x := (mm / h * 100)%Q) in *. set (x' := (mm' / h * 100)%Q) in *.
  pose proof (py_min_spec 100 x) as [A1 [A2 A3]].
  pose proof (py_min_spec 100 x') as [A1' [A2' A3']].
  set (p := py_min 100 x) in *. set (p' := py_min 100 x') in *.
  pose proof (py_max_spec 20 p) as [B1 [B2 B3]].
  pose proof (py_max_spec 20 p') as [B1' [B2' B3']].
  set (b := py_max 20 p) in *. set (b' := py_max 20 p') in *.
  clearbody b b' p p' x x' k h.
  assert (Hfifth : (h / 5 * k == 20)%Q).
  { setoid_replace (h / 5 * k)%Q with ((h * k) / 5)%Q by field.
    rewrite Hkh. reflexivity. }
  assert (Hmono : forall u v, (u <= v)%Q -> (u * k <= v * k)%Q)
    by (intros u v Huv; apply Qmult_le_compat_r; lra).
  split; [|split; [|split; [|split]]].
  - split; [exact B1|]. destruct B3 as [E|E]; lra.
  - intros H. pose proof (Hmono _ _ H).
    destruct A3 as [E|E]; destruct B3 as [E2|E2]; lra.
  - intros [H1 H2]. pose proof (Hmono _ _ H1) as M1. pose proof (Hmono _ _ H2).
    rewrite Hfifth in M1.
    destruct A3 as [E|E]; destruct B3 as [E2|E2]; lra.
  - intros H. pose proof (Hmono _ _ H) as M1. rewrite Hfifth in M1.
    destruct A3 as [E|E]; destruct B3 as [E2|E2]; lra.
  - intros H. pose proof (Hmono _ _ H).
    destruct A3 as [E|E]; destruct B3 as [E2|E2];
      destruct A3' as [E'|E']; destruct B3' as [E2'|E2']; lra.
Qed.

Lemma bar_height_bounds_witness :
  (20 <= bar_height 6 12 <= 100)%Q
  /\ ((inject_Z 12 <= 6)%Q -> (bar_height 6 12 == 100)%Q)
  /\ ((inject_Z 12 / 5 <= 6 <= inject_Z 12)%Q ->
      (bar_height 6 12 == 6 / inject_Z 12 * 100)%Q)
  /\ ((6 <= inject_Z 12 / 5)%Q -> (bar_height 6 12 == 20)%Q)
  /\ ((6 <= 8)%Q -> (bar_height 6 12 <= bar_height 8 12)%Q).
Proof. apply (bar_height_bounds 6 8 12). lia. Defined.

(* ===================================================================== *)
(** * Headline counts and department totals: properties *)
(* ===================================================================== *)

Section CountFacts.

Lemma nunique_incl (l l' : list string) :
  incl l l' -> (nunique l <= nunique l')%nat.
Proof.
  intros H. unfold nunique. apply NoDup_incl_length; [apply NoDup_nodup|].
  intros x Hx. apply nodup_In. apply H. apply nodup_In in Hx. exact Hx.
Qed.

Lemma meta_view_incl (st : session) : incl (meta_view st) (meta st).
Proof.
  unfold meta_view. destruct (negb (String.eqb (dept st) "All")).
  - intros r Hr. apply filter_In in Hr. apply Hr.
  - apply incl_refl.
Qed.

End CountFacts.

(** The headline counts: the number of active projects never exceeds the
    number of projects in view, so "Low Activity" is never negative, and a
    department selection never shows more projects than "All" does. *)
Theorem low_activity_not_negative (st : session) (active_month d : string) :
  0 <= active_count st active_month <= total_projects st
  /\ 0 <= low_activity st active_month
  /\ total_projects (mk_session (alloc st) (meta st) d)
     <= total_projects (mk_session (alloc st) (meta st) "All").
Proof.
  assert (A : (nunique (map Project (active st active_month))
               <= nunique (map meta_Project (meta_view st)))%nat).
  { apply nunique_incl. intros x Hx. apply in_map_iff in Hx.
    destruct Hx as [r [<- Hr]]. unfold active in Hr. apply filter_In in Hr.
    destruct Hr as [_ Hr]. apply andb_true_iff in Hr. destruct Hr as [_ Hr].
    apply mem_In, Hr. }
  unfold low_activity, active_count, total_projects. split; [lia|]. split; [lia|].
  apply Nat2Z.inj_le. apply nunique_incl. apply incl_map.
  intros r Hr. apply (meta_view_incl (mk_session (alloc st) (meta st) d)) in Hr. exact Hr.
Qed.

Section PartitionSums.

Lemma lt_str_trans (a b c : string) : lt_str a b -> lt_str b c -> lt_str a c.
Proof.
  unfold lt_str. intros H1 H2.
  apply String_as_OT.cmp_lt. apply String_as_OT.cmp_lt in H1, H2.
  exact (String_as_OT.lt_trans _ _ _ H1 H2).
Qed.

Lemma lt_str_irrefl (a : string) : ~ lt_str a a.
Proof.
  unfold lt_str. intros H.
  assert (E : String.compare a a = Eq) by (apply String_as_OT.cmp_eq; reflexivity).
  congruence.
Qed.

Lemma insert_key_sorted (k : string) (keys : list string) :
  StronglySorted lt_str keys -> StronglySorted lt_str (insert_key k keys).
Proof.
  induction keys as [|h t IH]; intros S; simpl.
  - constructor; constructor.
  - inversion S as [|x l St Ft]; subst.
    destruct (String.compare k h) eqn:E.
    + exact S.
    + constructor; [exact S|]. constructor; [exact E|].
      eapply Forall_impl; [|exact Ft]. intros x Hx. exact (lt_str_trans _ _ _ E Hx).
    + constructor; [apply IH, St|]. apply Forall_forall. intros x Hx.
      apply insert_key_In in Hx. destruct Hx as [->|Hx].
      * unfold lt_str. rewrite String.compare_antisym, E. reflexivity.
      * rewrite Forall_forall in Ft. apply Ft, Hx.
Qed.

Lemma sorted_NoDup (keys : list string) : StronglySorted lt_str keys -> NoDup keys.
Proof.
  induction 1 as [|a l S IH F]; constructor; [|exact IH].
  intros Hin. rewrite Forall_forall in F. exact (lt_str_irrefl a (F a Hin)).
Qed.

Lemma fold_insert_key_sorted {A : Type} (key : A -> option string)
      (rows : list A) (acc : list string) :
  StronglySorted lt_str acc ->
  StronglySorted lt_str
    (fold_left (fun keys r => match key r with
                              | Some p => insert_key p keys
                              | None => keys
                              end) rows acc).
Proof.
  revert acc. induction rows as [|r rows IH]; intros acc S; simpl; [exact S|].
  apply IH. destruct (key r); [apply insert_key_sorted, S|exact S].
Qed.

Lemma Qsum_map_eq {A : Type} (f g : A -> Q) (l : list A) :
  (forall d, In d l -> (f d == g d)%Q) -> (Qsum (map f l) == Qsum (map g l))%Q.
Proof.
  induction l as [|a l IH]; intros H; [reflexivity|].
  simpl. rewrite !Qsum_cons, IH, (H a) by (try left; auto; intros; apply H; right; auto).
  reflexivity.
Qed.

Lemma Qsum_map_plus {A : Type} (f g : A -> Q) (l : list A) :
  (Qsum (map (fun d => f d + g d) l) == Qsum (map f l) + Qsum (map g l))%Q.
Proof.
  induction l as [|a l IH]; [unfold Qsum; simpl; ring|].
  simpl. rewrite !Qsum_cons, IH. ring.
Qed.

Lemma Qsum_indicator (keys : list string) (a : string) (x : Q) :
  NoDup keys ->
  (Qsum (map (fun d => if String.eqb a d then x else 0) keys)
   == if in_dec string_dec a keys then x else 0)%Q.
Proof.
  induction 1 as [|h t Hh Ht IH]; [reflexivity|].
  cbn [map]. rewrite Qsum_cons, IH.
  destruct (String.eqb_spec a h) as [->|N].
  - destruct (in_dec string_dec h t) as [C|_]; [contradiction|].
    destruct (in_dec string_dec h (h :: t)) as [_|C]; [ring|].
    exfalso. apply C. left. reflexivity.
  - destruct (in_dec string_dec a t) as [I|I];
      destruct (in_dec string_dec a (h :: t)) as [J|J]; try ring.
    + exfalso. apply J. right. exact I.
    + exfalso. destruct J as [J|J]; [congruence|contradiction].
Qed.

(** Summing the groups of a partition by key gives the sum of what each
    row contributes to the keys. *)
Lemma Qsum_groups {A : Type} (v : A -> Q) (sel : string -> A -> bool)
      (keys : list string) (rows : list A) :
  (Qsum (map (fun d => Qsum (map v (filter (sel d) rows))) keys)
   == Qsum (map (fun r => Qsum (map (fun d => if sel d r then v r else 0) keys)) rows))%Q.
Proof.
  induction rows as [|r rows IH].
  - cbn [filter map]. rewrite (Qsum_map_eq _ (fun _ => 0%Q)) by (intros; reflexivity).
    induction keys as [|k ks IHk]; [reflexivity|].
    cbn [map]. rewrite Qsum_cons, IHk. unfold Qsum. simpl. ring.
  - cbn [map]. rewrite Qsum_cons, <- IH, <- Qsum_map_plus.
    apply Qsum_map_eq. intros d _. cbn [filter].
    destruct (sel d r); [cbn [map]; rewrite Qsum_cons; reflexivity|ring].
Qed.

Lemma dept_keys_acc_In (rows : list meta_row) (acc : list string) (d : string) :
  In d (fold_left (fun keys r => insert_key (Department r) keys) rows acc)
  <-> In d acc \/ exists r, In r rows /\ Department r = d.
Proof.
  revert acc. induction rows as [|r rs IH]; intros acc; simpl.
  - split; [tauto|]. intros [H|[r [[] _]]]. exact H.
  - rewrite IH, insert_key_In. split.
    + intros [[E|H]|[r' [H1 H2]]].
      * right. exists r. split; [left; reflexivity|symmetry; exact E].
      * left. exact H.
      * right. exists r'. split; [right; exact H1|exact H2].
    + intros [H|[r' [[E|H1] H2]]].
      * left. right. exact H.
      * left. left. subst r'. symmetry. exact H2.
      * right. exists r'. split; assumption.
Qed.

Lemma dept_keys_In (rows : list meta_row) (d : string) :
  In d (dept_keys rows) <-> exists r, In r rows /\ Department r = d.
Proof. unfold dept_keys. rewrite dept_keys_acc_In. simpl. tauto. Qed.

End PartitionSums.

(** The pie chart and the TOTAL BUDGET box show the same amount: the totals
    per department of the projects in view add up to the budget of all the
    projects in view; each department appears once in the pie, in increasing
    order of its label. *)
Theorem department_totals_add_up (st : session) :
  (pie_total st == total_budget st)%Q
  /\ StronglySorted lt_str (map fst (dept_totals (meta_view st)))
  /\ NoDup (map fst (dept_totals (meta_view st)))
  /\ (forall d, In d (map fst (dept_totals (meta_view st)))
                <-> exists r, In r (meta_view st) /\ Department r = d).
Proof.
  set (rows := meta_view st).
  assert (K : map fst (dept_totals rows) = dept_keys rows).
  { unfold dept_totals. rewrite map_map. cbn [fst]. apply map_id. }
  assert (S : StronglySorted lt_str (dept_keys rows)).
  { unfold dept_keys.
    apply (fold_insert_key_sorted (fun r => Some (Department r))). constructor. }
  assert (I : forall d, In d (dept_keys rows) <-> exists r, In r rows /\ Department r = d)
    by (intros d; apply dept_keys_In).
  split; [|rewrite K; split; [exact S|split; [apply sorted_NoDup, S|exact I]]].
  unfold pie_total, total_budget. fold rows. unfold dept_totals.
  rewrite map_map. cbn [snd].
  rewrite (Qsum_groups Total_MM (fun d r => String.eqb (Department r) d)).
  apply Qsum_map_eq. intros r Hr.
  rewrite (Qsum_indicator (dept_keys rows) (Department r) (Total_MM r))
    by (apply sorted_NoDup, S).
  destruct (in_dec string_dec (Department r) (dept_keys rows)) as [_|C]; [reflexivity|].
  exfalso. apply C, I. eauto.
Qed.

(* ===================================================================== *)
(** * The employee grid: properties *)
(* ===================================================================== *)

Section GridFacts.

Lemma fold_insert_key_In (l acc : list string) (x : string) :
  In x (fold_left (fun names n => insert_key n names) l acc) <-> In x acc \/ In x l.
Proof.
  revert acc. induction l as [|n l IH]; intros acc; simpl; [tauto|].
  rewrite IH, insert_key_In. intuition congruence.
Qed.

Lemma all_employees_acc_In (alloc : list alloc_row) (acc : list string) (x : string) :
  In x (fold_left (fun names row => fold_left (fun names n => insert_key n names)
                                              (row_names row) names) alloc acc)
  <-> In x acc \/ exists row, In row alloc /\ In x (row_names row).
Proof.
  revert acc. induction alloc as [|r rs IH]; intros acc; simpl.
  - split; [tauto|]. intros [H|[row [[] _]]]. exact H.
  - rewrite IH, fold_insert_key_In. split.
    + intros [[H|H]|[row [H1 H2]]].
      * left. exact H.
      * right. exists r. split; [left; reflexivity|exact H].
      * right. exists row. split; [right; exact H1|exact H2].
    + intros [H|[row [[E|H1] H2]]].
      * left. left. exact H.
      * subst row. left. right. exact H2.
      * right. exists row. split; assumption.
Qed.

Lemma all_employees_In (alloc : list alloc_row) (x : string) :
  In x (all_employees alloc) <-> exists row, In row alloc /\ In x (row_names row).
Proof. unfold all_employees. rewrite all_employees_acc_In. simpl. tauto. Qed.

Lemma parsed_part_name (p name : string) (mm : pyfloat) :
  parse_part p = Parsed name mm -> part_name p = Some name.
Proof.
  unfold parse_part, part_name.
  destruct (contains "(" p); [|discriminate]. cbn [andb].
  destruct (contains ")" p); [|discriminate].
  destruct (float _); [|discriminate]. intros [= <- _]. reflexivity.
Qed.

Lemma add_allocation_key_In (key k : emp_key) (project : string) (mm : pyfloat)
      (d : emp_dict) :
  In k (map fst (add_allocation key project mm d)) -> k = key \/ In k (map fst d).
Proof.
  unfold add_allocation.
  destruct (in_dec key_dec key (map fst d)) as [Hin|Hout].
  - rewrite dict_set_keys_present by exact Hin. auto.
  - rewrite dict_set_keys_absent by exact Hout. rewrite in_app_iff.
    intros [H|[H|[]]]; auto.
Qed.

Lemma process_parts_key_In (project date : string) (parts : list string)
      (d : emp_dict) (k : emp_key) :
  In k (map fst (process_parts project date parts d)) ->
  In k (map fst d)
  \/ (snd k = date /\ exists p, In p parts /\ part_name p = Some (fst k)).
Proof.
  revert d. induction parts as [|p rest IH]; intros d; simpl; [auto|].
  destruct (parse_part p) as [|name mm|] eqn:E; [| |auto].
  - intros H. destruct (IH _ H) as [H1|[H1 [q [H2 H3]]]]; [auto|].
    right. split; [exact H1|]. exists q. auto.
  - intros H. destruct (IH _ H) as [H1|[H1 [q [H2 H3]]]].
    + apply add_allocation_key_In in H1. destruct H1 as [->|H1]; [|auto].
      right. split; [reflexivity|]. exists p. split; [left; reflexivity|].
      apply (parsed_part_name p name mm E).
    + right. split; [exact H1|]. exists q. auto.
Qed.

Lemma employee_allocations_key_In (alloc : list alloc_row) (d : emp_dict) (k : emp_key) :
  In k (map fst (fold_left process_row alloc d)) ->
  In k (map fst d)
  \/ exists row, In row alloc /\ Date row = snd k /\ In (fst k) (row_names row).
Proof.
  revert d. induction alloc as [|r rs IH]; intros d; simpl; [auto|].
  intros H. destruct (IH _ H) as [H1|[row [H1 H2]]].
  - unfold process_row in H1. unfold row_names.
    destruct (Employees r) as [text|] eqn:Er; [|auto].
    destruct (is_empty text) eqn:Et; [auto|].
    apply process_parts_key_In in H1. destruct H1 as [H1|[H1 [p [H2 H3]]]]; [auto|].
    right. exists r. split; [left; reflexivity|]. split; [symmetry; exact H1|].
    rewrite Er, Et. apply in_flat_map. exists p. split; [exact H2|].
    rewrite H3. left. reflexivity.
  - right. exists row. split; [right; exact H1|exact H2].
Qed.

Lemma dict_get_In (k : emp_key) (v : load) (d : emp_dict) :
  NoDup (map fst d) -> (dict_get k d = Some v <-> In (k, v) d).
Proof.
  induction d as [|[k' v'] t IH]; simpl; intros N; [split; [discriminate|tauto]|].
  inversion N as [|x xs Hh Ht]; subst.
  destruct (key_eqb k k') eqn:E.
  - apply key_eqb_eq in E. subst k'. split.
    + intros [= <-]. left. reflexivity.
    + intros [[= <-]|H]; [reflexivity|]. exfalso. apply Hh.
      apply in_map_iff. exists (k, v). split; [reflexivity|exact H].
  - rewrite (IH Ht). split; [auto|]. intros [[= E1 E2]|H]; [|exact H].
    exfalso. rewrite E1 in E.
    assert (T : key_eqb k k = true) by (apply key_eqb_eq; reflexivity). congruence.
Qed.

Lemma dict_get_None (k : emp_key) (d : emp_dict) :
  ~ In k (map fst d) -> dict_get k d = None.
Proof.
  induction d as [|[k' v'] t IH]; simpl; intros H; [reflexivity|].
  destruct (key_eqb k k') eqn:E.
  - apply key_eqb_eq in E. subst k'. exfalso. apply H. left. reflexivity.
  - apply IH. intros C. apply H. right. exact C.
Qed.

(** With one entry per key, the grid's scan of the dictionary finds the
    entry of the cell, or keeps 0. *)
Lemma month_pct_lookup (d : emp_dict) (employee month : string) :
  NoDup (map fst d) ->
  month_pct d employee month
  = percent_of_full_time match dict_get (employee, month) d with
                         | Some v => total_mm v
                         | None => Fin 0
                         end.
Proof.
  intros N. unfold month_pct. f_equal. generalize (Fin 0) as acc.
  induction d as [|[[e m] v] t IH]; intros acc; [reflexivity|].
  inversion N as [|x xs Hh Ht]; subst.
  cbn [fold_left fst snd dict_get]. unfold key_eqb. cbn [fst snd].
  rewrite (String.eqb_sym employee e), (String.eqb_sym month m).
  destruct (String.eqb e employee && String.eqb m month) eqn:E.
  - apply andb_true_iff in E. destruct E as [E1 E2].
    apply String.eqb_eq in E1, E2. subst e m.
    rewrite (IH Ht), (dict_get_None _ _ Hh). reflexivity.
  - apply IH, Ht.
Qed.

Lemma cell_class_over_Fin (pq : Q) :
  cell_class (Fin pq) = "over" <-> (100 < pq)%Q.
Proof.
  unfold cell_class, feq, flt, fle.
  destruct (Qeq_bool pq 0) eqn:E0; [split; [discriminate|intros L; band_arith]|].
  destruct (negb (Qle_bool 50 pq)) eqn:E1; [split; [discriminate|intros L; band_arith]|].
  destruct (negb (Qle_bool 75 pq)) eqn:E2; [split; [discriminate|intros L; band_arith]|].
  destruct (Qle_bool pq 100) eqn:E3; [split; [discriminate|intros L; band_arith]|].
  split; [intros _; apply Qle_bool_false, E3|reflexivity].
Qed.

Lemma over_iff_overloaded (x : pyfloat) :
  cell_class (percent_of_full_time x) = "over"
  <-> fgt x full_time = true \/ x = NaN.
Proof.
  destruct x as [q|[|]|].
  - assert (P : exists pq, percent_of_full_time (Fin q) = Fin pq /\ (pq == q * 25)%Q).
    { exists (Qred (Qred (q / 4) * 100)). split; [reflexivity|].
      rewrite !Qred_correct. field. }
    destruct P as [pq [-> Hpq]].
    rewrite cell_class_over_Fin, fgt_full_time. split.
    + intros L. left. lra.
    + intros [L|L]; [lra|discriminate].
  - vm_compute. split; [discriminate|intros [C|C]; discriminate].
  - vm_compute. split; [intros _; left; reflexivity|reflexivity].
  - vm_compute. split; [intros _; right; reflexivity|reflexivity].
Qed.

End GridFacts.

(** Every employee who has a load is a line of the utilisation grid, and
    every key of the load dictionary is made of a name and a date read from
    one and the same record. The converse fails: the second scan also takes
    names from segments whose number does not parse. *)
Theorem grid_lists_every_loaded_employee (alloc : list alloc_row) :
  Forall (fun item =>
            In (fst (fst item)) (all_employees alloc)
            /\ exists row, In row alloc /\ Date row = snd (fst item)
                           /\ In (fst (fst item)) (row_names row))
         (employee_allocations alloc)
  /\ all_employees [mk_alloc "P" "2025-01" None 1 (Some "Ann (x), Bob (1)")]
     = ["Ann"; "Bob"]
  /\ employee_allocations [mk_alloc "P" "2025-01" None 1 (Some "Ann (x), Bob (1)")] = [].
Proof.
  split; [|split; vm_compute; reflexivity].
  apply Forall_forall. intros [k v] Hin. cbn [fst].
  assert (Hk : In k (map fst (employee_allocations alloc)))
    by (apply in_map_iff; exists (k, v); split; [reflexivity|exact Hin]).
  unfold employee_allocations in Hk. apply employee_allocations_key_In in Hk.
  destruct Hk as [[]|[row [H1 [H2 H3]]]].
  split; [apply all_employees_In; eauto|eauto].
Qed.

(** A cell of the utilisation grid is "over" exactly when the employee has an
    entry for that month whose total is above 4.0 or is NaN; the conflict
    list has a conflict for that employee and month exactly when the total is
    above 4.0. So every conflict is an "over" cell, and an "over" cell
    without a conflict can only come from a NaN total. *)
Theorem over_cells_and_conflicts (alloc : list alloc_row) (e m : string) :
  let d := employee_allocations alloc in
  (cell_class (month_pct d e m) = "over"
   <-> exists v, dict_get (e, m) d = Some v
                 /\ (fgt (total_mm v) full_time = true \/ total_mm v = NaN))
  /\ ((exists c, In c (conflicts d) /\ employee c = e /\ month c = m)
      <-> exists v, dict_get (e, m) d = Some v /\ fgt (total_mm v) full_time = true)
  /\ ((exists c, In c (conflicts d) /\ employee c = e /\ month c = m)
      -> cell_class (month_pct d e m) = "over").
Proof.
  cbv zeta. set (d := employee_allocations alloc).
  assert (N : NoDup (map fst d))
    by (apply fold_process_row_keys; constructor).
  assert (A : cell_class (month_pct d e m) = "over"
              <-> exists v, dict_get (e, m) d = Some v
                            /\ (fgt (total_mm v) full_time = true \/ total_mm v = NaN)).
  { rewrite (month_pct_lookup d e m N), over_iff_overloaded.
    destruct (dict_get (e, m) d) as [v|].
    - split; [intros H; exists v; auto|intros [v' [[= <-] H]]; exact H].
    - split; [intros [H|H]; discriminate|intros [v' [H _]]; discriminate]. }
  assert (B : (exists c, In c (conflicts d) /\ employee c = e /\ month c = m)
              <-> exists v, dict_get (e, m) d = Some v /\ fgt (total_mm v) full_time = true).
  { rewrite conflicts_as_filter. split.
    - intros [c [Hc [He Hm]]]. apply in_map_iff in Hc.
      destruct Hc as [[[e' m'] v] [Ec Hf]]. apply filter_In in Hf.
      destruct Hf as [Hin Ho]. subst c. cbn in He, Hm. subst e' m'.
      exists v. split; [apply (dict_get_In _ _ _ N), Hin|exact Ho].
    - intros [v [Hg Ho]]. apply (dict_get_In _ _ _ N) in Hg.
      exists (conflict_of ((e, m), v)). split; [|split; reflexivity].
      apply in_map_iff. exists ((e, m), v). split; [reflexivity|].
      apply filter_In. split; [exact Hg|exact Ho]. }
  split; [exact A|]. split; [exact B|].
  intros H. apply A. apply B in H. destruct H as [v [H1 H2]]. exists v. auto.
Qed.

(* ===================================================================== *)
(** * Calendar: what the parsing accepts and what comes out *)
(* ===================================================================== *)

Section ParseFacts.

Lemma split_pieces_no_sep (sep : ascii) (s p : string) :
  In p (split sep s) -> contains sep p = false.
Proof.
  revert p. induction s as [|c r IH]; intros p; simpl.
  - intros [<-|[]]. reflexivity.
  - destruct (Ascii.eqb c sep) eqn:E.
    + intros [<-|H]; [reflexivity|apply IH, H].
    + destruct (split sep r) as [|h t] eqn:Es.
      * intros [<-|[]]. simpl. rewrite E. reflexivity.
      * intros [<-|H].
        -- simpl. rewrite E. apply IH. left. reflexivity.
        -- apply IH. right. exact H.
Qed.

Lemma drop_underscores_contains (c prev : ascii) (s s1 : string) :
  drop_underscores prev s = Some s1 -> contains c s = false -> contains c s1 = false.
Proof.
  revert prev s1. induction s as [|a r IH]; intros prev s1; simpl.
  - destruct (Ascii.eqb prev "_"); [discriminate|]. intros [= <-] _. reflexivity.
  - intros H C. apply orb_false_iff in C. destruct C as [Ca Cr].
    destruct (Ascii.eqb a "_").
    + destruct (is_digit prev); [|discriminate]. apply (IH _ _ H Cr).
    + destruct (Ascii.eqb prev "_" && negb (is_digit a)); [discriminate|].
      destruct (drop_underscores a r) as [r1|] eqn:E; [|discriminate].
      injection H as <-. simpl. rewrite Ca. apply (IH _ _ E Cr).
Qed.

Lemma lstrip_contains (sp : ascii -> bool) (c : ascii) (s : string) :
  contains c s = false -> contains c (lstrip_by sp s) = false.
Proof.
  induction s as [|a r IH]; simpl; [auto|].
  intros C. destruct (sp a); [|exact C].
  apply orb_false_iff in C. apply IH, C.
Qed.

Lemma rstrip_contains (sp : ascii -> bool) (c : ascii) (s : string) :
  contains c s = false -> contains c (rstrip_by sp s) = false.
Proof.
  induction s as [|a r IH]; simpl; [auto|].
  intros C. apply orb_false_iff in C. destruct C as [Ca Cr].
  destruct (is_empty (rstrip_by sp r) && sp a); [reflexivity|].
  simpl. rewrite Ca. apply IH, Cr.
Qed.

Lemma digits_value_nonneg (s : string) (acc v : Z) :
  0 <= acc -> digits_value s acc = Some v -> 0 <= v.
Proof.
  revert acc. induction s as [|c r IH]; intros acc Ha; cbn [digits_value].
  - intros [= <-]. exact Ha.
  - destruct (is_digit c) eqn:D; [|discriminate].
    apply IH. unfold is_digit in D. apply andb_true_iff in D.
    destruct D as [D1 D2]. apply Z.leb_le in D1. lia.
Qed.

(** A piece of text without a dash never reads as a negative integer. *)
Lemma int_nonneg (s : string) (v : Z) :
  contains "-" s = false -> Py.int s = Some v -> 0 <= v.
Proof.
  intros C. unfold Py.int.
  destruct (drop_underscores zero s) as [s1|] eqn:E; [|discriminate].
  pose proof (drop_underscores_contains "-" _ _ _ E C) as C1.
  pose proof (rstrip_contains is_space_num "-" _
                (lstrip_contains is_space_num "-" _ C1)) as C2.
  set (s2 := rstrip_by is_space_num (lstrip_by is_space_num s1)) in *.
  assert (Hs : exists body, split_sign s2 = (false, body)).
  { destruct s2 as [|a r]; [exists ""; reflexivity|].
    simpl in C2. apply orb_false_iff in C2. destruct C2 as [Ca _].
    unfold split_sign.
    destruct (Ascii.eqb_spec a "-") as [->|Na]; [discriminate|].
    destruct (Ascii.eqb_spec a "+") as [->|Np]; [eexists; reflexivity|].
    exists (String a r).
    destruct a as [[|] [|] [|] [|] [|] [|] [|] [|]]; try reflexivity; congruence. }
  destruct Hs as [body ->].
  destruct (is_empty body); [discriminate|].
  destruct (digits_value body 0) as [w|] eqn:Ed; [|discriminate].
  intros [= <-]. apply (digits_value_nonneg body 0 w); [lia|exact Ed].
Qed.

Lemma parse_ym_nonneg (s : string) (y m : Z) :
  parse_ym s = Some (y, m) -> 0 <= y /\ 0 <= m.
Proof.
  unfold parse_ym.
  destruct (split "-" s) as [|a [|b [|c l]]] eqn:E; try discriminate.
  assert (Ca : contains "-" a = false)
    by (apply (split_pieces_no_sep "-" s); rewrite E; left; reflexivity).
  assert (Cb : contains "-" b = false)
    by (apply (split_pieces_no_sep "-" s); rewrite E; right; left; reflexivity).
  destruct (Py.int a) as [y'|] eqn:Ia; [|discriminate].
  destruct (Py.int b) as [m'|] eqn:Ib; [|discriminate].
  intros [= <- <-]. split; [apply (int_nonneg a), Ia|apply (int_nonneg b), Ib]; assumption.
Qed.

Lemma nth_range (f : Z -> string) (k i : nat) :
  (i < k)%nat -> nth i (map f (map Z.of_nat (seq 0 k))) "" = f (Z.of_nat i).
Proof.
  intros H. rewrite map_map.
  rewrite (nth_indep _ "" (f (Z.of_nat 0))) by (rewrite length_map, length_seq; exact H).
  rewrite (map_nth (fun x => f (Z.of_nat x)) (seq 0 k) 0%nat i), seq_nth by exact H.
  reflexivity.
Qed.

End ParseFacts.

(** Whatever spelling the handlers and [yms] accept, the year and the month
    they read are never negative: the dash is the separator, so no piece can
    carry a minus sign. *)
Theorem parsed_dates_are_not_negative (s : string) :
  match parse_ym s with
  | Some (y, m) => 0 <= y /\ 0 <= m
  | None => yms s 1 = None /\ shift_forward s = None /\ shift_backward s = None
  end.
Proof.
  destruct (parse_ym s) as [[y m]|] eqn:E.
  - apply (parse_ym_nonneg s), E.
  - unfold yms, shift_forward, shift_backward. rewrite E. repeat split.
Qed.

(** On every date that parses, whatever month number it holds, the +1
    handler writes a month between 01 and 12, of the same or the next year;
    the -1 handler writes a month of at least 01, of the same or the previous
    year, and at most 12 when the month read is at most 13. *)
Theorem shifted_month_range (s : string) (y m : Z) :
  parse_ym s = Some (y, m) ->
  (exists y' m', shift_forward s = Some (format_ym y' m')
                 /\ 1 <= m' <= 12 /\ y <= y' <= y + 1)
  /\ (exists y' m', shift_backward s = Some (format_ym y' m')
                    /\ 1 <= m' /\ (m <= 13 -> m' <= 12) /\ y - 1 <= y' <= y).
Proof.
  intros E. destruct (parse_ym_nonneg s y m E) as [Hy Hm].
  unfold shift_forward, shift_backward. rewrite E. cbv zeta. split.
  - destruct (Z.gtb_spec (m + 1) 12).
    + exists (y + 1), 1. split; [reflexivity|lia].
    + exists y, (m + 1). split; [reflexivity|lia].
  - destruct (Z.ltb_spec (m - 1) 1).
    + exists (y - 1), 12. split; [reflexivity|lia].
    + exists y, (m - 1). split; [reflexivity|lia].
Qed.

Lemma shifted_month_range_witness :
  (exists y' m', shift_forward "2025-13" = Some (format_ym y' m')
                 /\ 1 <= m' <= 12 /\ 2025 <= y' <= 2025 + 1)
  /\ (exists y' m', shift_backward "2025-13" = Some (format_ym y' m')
                    /\ 1 <= m' /\ (13 <= 13 -> m' <= 12) /\ 2025 - 1 <= y' <= 2025).
Proof. apply (shifted_month_range "2025-13" 2025 13). reflexivity. Defined.

(** [yms] fails exactly when its start token does not parse. Otherwise it
    returns [n] tokens (none for a negative [n]), each with a month between
    01 and 12: a start month outside the calendar is carried into the year,
    so the first token need not be the start token. *)
Theorem yms_normalises_months (s : string) (n : Z) :
  match yms s n with
  | Some out =>
      parse_ym s <> None
      /\ List.length out = Z.to_nat n
      /\ Forall (fun t => exists yy mm, t = format_ym yy mm /\ 1 <= mm <= 12) out
  | None => parse_ym s = None
  end
  /\ yms "2025-13" 2 = Some ["2026-01"; "2026-02"].
Proof.
  split; [|vm_compute; reflexivity].
  unfold yms. destruct (parse_ym s) as [[y m]|]; [|reflexivity].
  split; [discriminate|]. split.
  - unfold range. rewrite !length_map, length_seq. reflexivity.
  - apply Forall_forall. intros t Ht. apply in_map_iff in Ht.
    destruct Ht as [i [<- _]]. cbv zeta.
    exists (y + (m - 1 + i) / 12), ((m - 1 + i) mod 12 + 1).
    split; [reflexivity|]. pose proof (Z.mod_pos_bound (m - 1 + i) 12). lia.
Qed.

(** Consecutive tokens of [yms] are related by the +1 handler: the handler
    applied to a token of the sequence gives the next one, as long as the
    years stay within four digits. *)
Theorem yms_steps_are_forward_shifts (y m n : Z) (out : list string) (i : nat) :
  0 <= y <= 9999 -> 1 <= m <= 12 ->
  yms (format_ym y m) n = Some out ->
  (S i < List.length out)%nat ->
  12 * y + m + Z.of_nat i <= 12 * 9999 + 11 ->
  shift_forward (nth i out "") = Some (nth (S i) out "").
Proof.
  intros Hy Hm Hout Hi Hlim. unfold yms in Hout.
  rewrite (parse_format_ym y m Hy Hm) in Hout. injection Hout as <-.
  unfold range in *. rewrite !length_map, length_seq in Hi.
  set (f := fun i0 : Z => let yy := y + (m - 1 + i0) / 12 in
                          let mm := (m - 1 + i0) mod 12 + 1 in format_ym yy mm).
  rewrite (nth_range f) by lia. rewrite (nth_range f) by lia.
  unfold f. cbv zeta.
  set (q := (m - 1 + Z.of_nat i) / 12). set (r := (m - 1 + Z.of_nat i) mod 12).
  assert (Hqr : m - 1 + Z.of_nat i = 12 * q + r /\ 0 <= r < 12).
  { unfold q, r. split; [apply Z.div_mod; lia|apply Z.mod_pos_bound; lia]. }
  unfold shift_forward. rewrite parse_format_ym by lia. cbv zeta.
  pose proof (yms_index_step y m (Z.of_nat i) Hm ltac:(lia)) as St.
  fold q r in St. unfold Calendar.next_month in St.
  replace (Z.of_nat (S i)) with (Z.of_nat i + 1) by lia.
  destruct (Z.eqb_spec (r + 1) 12) as [E12|N12].
  - destruct (Z.gtb_spec (r + 1 + 1) 12); [|lia].
    injection St as <- <-. reflexivity.
  - destruct (Z.gtb_spec (r + 1 + 1) 12); [lia|].
    injection St as <- <-. reflexivity.
Qed.

Lemma yms_steps_are_forward_shifts_witness :
  shift_forward (nth 1 ["2025-11"; "2025-12"; "2026-01"] "")
  = Some (nth 2 ["2025-11"; "2025-12"; "2026-01"] "").
Proof.
  apply (yms_steps_are_forward_shifts 2025 11 3 ["2025-11"; "2025-12"; "2026-01"] 1);
    [lia|lia|vm_compute; reflexivity|simpl; lia|lia].
Defined.

(* ===================================================================== *)
(** * Saving the edited view: properties *)
(* ===================================================================== *)

Section SaveFacts.

Lemma filter_partition_perm {A : Type} (p : A -> bool) (l : list A) :
  Permutation (filter (fun x => negb (p x)) l ++ filter p l) l.
Proof.
  induction l as [|a l IH]; simpl; [constructor|].
  destruct (p a); simpl.
  - apply Permutation_sym, Permutation_cons_app, Permutation_sym, IH.
  - constructor. exact IH.
Qed.

Lemma month_total_app (a b : list alloc_row) (month : string) :
  (month_total (a ++ b) month == month_total a month + month_total b month)%Q.
Proof.
  unfold month_total. rewrite filter_app, map_app. apply Qsum_app.
Qed.

Lemma month_total_cons (r : alloc_row) (l : list alloc_row) (month : string) :
  (month_total (r :: l) month
   == (if String.eqb (Date r) month then MM r else 0) + month_total l month)%Q.
Proof.
  unfold month_total. simpl. destruct (String.eqb (Date r) month); simpl.
  - apply Qsum_cons.
  - ring.
Qed.

Lemma month_total_partition (p : alloc_row -> bool) (l : list alloc_row)
      (month : string) :
  (month_total (filter (fun x => negb (p x)) l) month + month_total (filter p l) month
   == month_total l month)%Q.
Proof.
  induction l as [|r l IH]; [unfold month_total, Qsum; simpl; ring|].
  simpl. rewrite (month_total_cons r l). destruct (p r); simpl;
    rewrite month_total_cons, <- IH; ring.
Qed.

Lemma filter_twice {A : Type} (p : A -> bool) (l : list A) :
  filter p (filter p l) = filter p l.
Proof.
  induction l as [|a l IH]; simpl; [reflexivity|].
  destruct (p a) eqn:E; simpl; [rewrite E, IH|]; auto.
Qed.

Lemma filter_clash {A : Type} (p : A -> bool) (l : list A) :
  filter p (filter (fun x => negb (p x)) l) = [].
Proof.
  induction l as [|a l IH]; simpl; [reflexivity|].
  destruct (p a) eqn:E; simpl; [|rewrite E]; exact IH.
Qed.

Lemma inactive_filter_selects_all (f : edit_filter) (alloc_data : list alloc_row) :
  filter_active f = false -> filtered_alloc f alloc_data = alloc_data.
Proof.
  unfold filter_active, filtered_alloc. intros H.
  apply orb_false_iff in H. destruct H as [H H3].
  apply orb_false_iff in H. destruct H as [H1 H2].
  apply negb_false_iff in H1, H2, H3.
  induction alloc_data as [|r l IH]; simpl; [reflexivity|].
  unfold filter_mask at 1. rewrite H1, H2, H3. simpl. rewrite IH. reflexivity.
Qed.

End SaveFacts.

(** "Save Changes" on main data with the default index. Without a filter the
    edited frame replaces the data. With a filter the rows outside the
    filter are all kept, in their order, and the filtered view of the saved
    data shows exactly the edited rows that satisfy the filter. Saving a view
    that was not edited keeps the same rows (rows of the view move behind
    the others) and so every monthly total; saving an emptied view deletes
    exactly the rows of the view. *)
Theorem save_changes_effect (f : edit_filter) (edited_alloc alloc_data : list alloc_row) :
  (filter_active f = false ->
   save_changes f edited_alloc alloc_data = edited_alloc
   /\ filtered_alloc f alloc_data = alloc_data)
  /\ (filter_active f = true ->
      filter (fun r => negb (filter_mask f r)) (save_changes f edited_alloc alloc_data)
      = (filter (fun r => negb (filter_mask f r)) alloc_data
         ++ filter (fun r => negb (filter_mask f r)) edited_alloc)%list
      /\ filtered_alloc f (save_changes f edited_alloc alloc_data)
         = filtered_alloc f edited_alloc
      /\ save_changes f [] alloc_data = filter (fun r => negb (filter_mask f r)) alloc_data)
  /\ Permutation (save_changes f (filtered_alloc f alloc_data) alloc_data) alloc_data
  /\ (forall month,
        (month_total (save_changes f (filtered_alloc f alloc_data) alloc_data) month
         == month_total alloc_data month)%Q).
Proof.
  split; [|split; [|split]].
  - intros H. split; [unfold save_changes; rewrite H; reflexivity|].
    apply inactive_filter_selects_all, H.
  - intros H. unfold save_changes, filtered_alloc. rewrite H. split; [|split].
    + rewrite filter_app. f_equal.
      apply (filter_twice (fun r => negb (filter_mask f r))).
    + rewrite filter_app, filter_clash. reflexivity.
    + apply app_nil_r.
  - unfold save_changes. destruct (filter_active f) eqn:H.
    + apply filter_partition_perm.
    + rewrite (inactive_filter_selects_all f alloc_data H). apply Permutation_refl.
  - intros month. unfold save_changes. destruct (filter_active f) eqn:H.
    + rewrite month_total_app. apply month_total_partition.
    + rewrite (inactive_filter_selects_all f alloc_data H). reflexivity.
Qed.

(* ===================================================================== *)
(** * Aggregation: nothing lost, nothing counted twice *)
(* ===================================================================== *)

Section Conservation.

Lemma dict_set_contributions (key : emp_key) (x : string * pyfloat) (d : emp_dict) :
  forall total,
    Permutation
      (contributions
         (dict_set key
                   (mk_load total
                            (projects match dict_get key d with
                                      | Some e => e
                                      | None => mk_load (Fin 0) []
                                      end ++ [x]))
                   d))
      (contributions d ++ [(key, x)]).
Proof.
  induction d as [|[k' v'] t IH]; intros total.
  - simpl. apply Permutation_refl.
  - cbn [dict_set dict_get]. destruct (key_eqb key k') eqn:E.
    + apply key_eqb_eq in E. subst k'.
      unfold contributions. cbn [flat_map fst snd projects].
      rewrite map_app, <- !app_assoc. apply Permutation_app_head.
      cbn [map]. apply Permutation_app_comm.
    + unfold contributions in *. cbn [flat_map]. rewrite <- app_assoc.
      apply Permutation_app_head. apply IH.
Qed.

Lemma add_allocation_contributions (key : emp_key) (project : string) (mm : pyfloat)
      (d : emp_dict) :
  Permutation (contributions (add_allocation key project mm d))
              (contributions d ++ [(key, (project, mm))]).
Proof. unfold add_allocation. apply dict_set_contributions. Qed.

Lemma fold_pairs_contributions (project date : string) (pairs : list (string * pyfloat))
      (d : emp_dict) :
  Permutation
    (contributions
       (fold_left (fun d nm => add_allocation (fst nm, date) project (snd nm) d) pairs d))
    (contributions d ++ map (fun nm => ((fst nm, date), (project, snd nm))) pairs).
Proof.
  revert d. induction pairs as [|nm rest IH]; intros d; simpl.
  - rewrite app_nil_r. apply Permutation_refl.
  - eapply Permutation_trans; [apply IH|].
    eapply Permutation_trans;
      [apply Permutation_app_tail, add_allocation_contributions|].
    rewrite <- app_assoc. apply Permutation_refl.
Qed.

Lemma process_row_contributions (d : emp_dict) (row : alloc_row) :
  Permutation (contributions (process_row d row))
              (contributions d ++ row_contributions row).
Proof.
  unfold process_row, row_contributions, row_pairs.
  destruct (Employees row) as [text|]; [|simpl; rewrite app_nil_r; apply Permutation_refl].
  destruct (is_empty text); [simpl; rewrite app_nil_r; apply Permutation_refl|].
  rewrite process_parts_pairs. apply fold_pairs_contributions.
Qed.

Lemma fold_rows_contributions (alloc : list alloc_row) (d : emp_dict) :
  Permutation (contributions (fold_left process_row alloc d))
              (contributions d ++ flat_map row_contributions alloc).
Proof.
  revert d. induction alloc as [|r rs IH]; intros d; simpl.
  - rewrite app_nil_r. apply Permutation_refl.
  - eapply Permutation_trans; [apply IH|].
    eapply Permutation_trans;
      [apply Permutation_app_tail, process_row_contributions|].
    rewrite <- app_assoc. apply Permutation_refl.
Qed.

End Conservation.

(** The aggregation neither loses nor duplicates a parsed pair: the
    (project, effort) pairs held in the dictionary, each under its
    (employee, date) key, are exactly the pairs read from the records, each
    as many times as it was read. Within one entry the pairs stand in the
    order in which the records were read. *)
Theorem aggregation_conserves_pairs (alloc : list alloc_row) :
  Permutation (contributions (employee_allocations alloc))
              (flat_map row_contributions alloc)
  /\ List.length (contributions (employee_allocations alloc))
     = List.length (flat_map row_pairs alloc).
Proof.
  assert (P : Permutation (contributions (employee_allocations alloc))
                          (flat_map row_contributions alloc))
    by (apply (fold_rows_contributions alloc [])).
  split; [exact P|].
  rewrite (Permutation_length P). clear P.
  induction alloc as [|r rs IH]; simpl; [reflexivity|].
  rewrite !length_app, IH. unfold row_contributions. rewrite length_map. reflexivity.
Qed.

(* ===================================================================== *)
(** * Bulk shift: a record can move twice *)
(* ===================================================================== *)

Section CascadeFacts.

Lemma format_ym_inj (y m y' m' : Z) :
  0 <= y <= 9999 -> 1 <= m <= 12 -> 0 <= y' <= 9999 -> 1 <= m' <= 12 ->
  format_ym y m = format_ym y' m' -> y = y' /\ m = m'.
Proof.
  intros Hy Hm Hy' Hm' E.
  pose proof (parse_format_ym y m Hy Hm) as P.
  rewrite E, (parse_format_ym y' m' Hy' Hm') in P.
  injection P as -> ->. split; reflexivity.
Qed.

Lemma shift_forward_valid (y m : Z) :
  0 <= y <= 9999 -> 1 <= m <= 12 ->
  shift_forward (format_ym y m) = Some (Calendar.token (Calendar.next_month (y, m))).
Proof.
  intros Hy Hm. unfold shift_forward. rewrite (parse_format_ym y m Hy Hm). cbv zeta.
  unfold Calendar.next_month, Calendar.token.
  destruct (Z.gtb_spec (m + 1) 12); destruct (Z.eqb_spec m 12); try lia; reflexivity.
Qed.

End CascadeFacts.

(** The +1 handler works through the selected rows one after the other on
    the main data. When a row is selected together with the row of the same
    project and phase one month later, in that order, the records of the
    first are moved onto the second's month and then moved again with it:
    both groups end two months after the first, none one month after. *)
Theorem forward_shift_cascades
        (project phase : string) (y m : Z) (mm1 mm2 : Q) (e1 e2 : option string)
        (alloc_data : list alloc_row) :
  0 <= y <= 9998 -> 1 <= m <= 12 ->
  let t0 := (y, m) in
  let t1 := Calendar.next_month t0 in
  let t2 := Calendar.next_month t1 in
  shift_selected shift_forward
                 [mk_alloc project (Calendar.token t0) (Some phase) mm1 e1;
                  mk_alloc project (Calendar.token t1) (Some phase) mm2 e2]
                 alloc_data
  = map (fun r =>
           if String.eqb (Project r) project && cell_eqb (Phase r) (Some phase)
              && (String.eqb (Date r) (Calendar.token t0)
                  || String.eqb (Date r) (Calendar.token t1))
           then with_Date (Calendar.token t2) r else r)
        alloc_data.
Proof.
  intros Hy Hm. cbv zeta.
  set (t1 := Calendar.next_month (y, m)).
  assert (V1 : 0 <= fst t1 <= 9999 /\ 1 <= snd t1 <= 12).
  { unfold t1, Calendar.next_month. destruct (Z.eqb_spec m 12); simpl; lia. }
  assert (N01 : Calendar.token (y, m) <> Calendar.token t1).
  { intros E. unfold Calendar.token in E.
    apply format_ym_inj in E; try tauto; try (simpl; lia).
    unfold t1, Calendar.next_month in E. cbn [fst snd] in E.
    destruct (Z.eqb_spec m 12); simpl in E; lia. }
  assert (S0 : shift_forward (Calendar.token (y, m)) = Some (Calendar.token t1))
    by (apply (shift_forward_valid y m); lia).
  assert (S1 : shift_forward (Calendar.token t1)
               = Some (Calendar.token (Calendar.next_month t1))).
  { destruct t1 as [y1 m1]. simpl in V1. apply (shift_forward_valid y1 m1); tauto. }
  set (t2 := Calendar.next_month t1) in *.
  unfold shift_selected. cbn [fold_left]. unfold shift_row. cbn [Date Project Phase].
  rewrite S0, S1. unfold set_date_where. rewrite map_map.
  apply map_ext. intros r.
  destruct (String.eqb_spec (Project r) project) as [Ep|Np]; cbn [andb]; [|rewrite ?andb_false_l].
  - destruct (cell_eqb (Phase r) (Some phase)) eqn:Eph; rewrite ?andb_true_r, ?andb_false_r.
    + destruct (String.eqb_spec (Date r) (Calendar.token (y, m))) as [E0|N0].
      * cbn [orb with_Date Project Date Phase]. rewrite Ep, Eph, !String.eqb_refl.
        reflexivity.
      * cbn [orb]. rewrite Ep, Eph, String.eqb_refl. cbn [andb].
        destruct (String.eqb (Date r) (Calendar.token t1)); reflexivity.
    + cbn [andb]. rewrite Ep, Eph, String.eqb_refl, !andb_false_r. reflexivity.
  - destruct (String.eqb_spec (Project r) project); [contradiction|]. reflexivity.
Qed.

Lemma forward_shift_cascades_witness :
  let data := [mk_alloc "BIORADAR" "2025-11" (Some "Design") 2 None;
               mk_alloc "BIORADAR" "2025-12" (Some "Design") 3 None] in
  shift_selected shift_forward data data
  = [mk_alloc "BIORADAR" "2026-01" (Some "Design") 2 None;
     mk_alloc "BIORADAR" "2026-01" (Some "Design") 3 None]
  /\ shift_selected shift_forward
       [mk_alloc "BIORADAR" (Calendar.token (2025, 11)) (Some "Design") 2 None;
        mk_alloc "BIORADAR" (Calendar.token (Calendar.next_month (2025, 11)))
                 (Some "Design") 3 None]
       data
     = map (fun r =>
              if String.eqb (Project r) "BIORADAR" && cell_eqb (Phase r) (Some "Design")
                 && (String.eqb (Date r) (Calendar.token (2025, 11))
                     || String.eqb (Date r)
                                   (Calendar.token (Calendar.next_month (2025, 11))))
              then with_Date (Calendar.token
                                (Calendar.next_month (Calendar.next_month (2025, 11)))) r
              else r)
           data.
Proof.
  cbv zeta. split; [vm_compute; reflexivity|].
  apply (forward_shift_cascades "BIORADAR" "Design" 2025 11 2 3 None None); lia.
Defined.
